(** * Koa application core: a shallow embedding of [lib/application.js]

    The development follows the source file top to bottom: JavaScript
    values and the object heap, the collaborators the file calls into, the
    [Application] methods ([constructor], [toJSON], [inspect], [use],
    [callback], [handleRequest], [createContext], [onerror]) and the
    module-level [respond] helper. Then come a concrete host and world, the
    vocabulary of the statements, and the properties with their proofs.

    Conventions.
    - A method is a computation in the monad [M]: it threads the [World]
      (object heap, event listeners, trace of transport effects) and
      completes normally or by a JavaScript [throw].
    - Objects live in the heap and are passed by reference: the middleware
      array that [callback] hands to the composition function is the one
      [use] pushes to.
    - Strings are byte strings (the UTF-8 encoding of the JavaScript string),
      so [Buffer.byteLength] is the length of the string.
    - Numbers are the integer-valued ones, plus [NaN].
    - The [debug] calls write diagnostics only and are left out, as are
      [listen] and the static [default]. *)

From stdpp Require Import gmap strings list fin_maps pretty.
From Stdlib Require Import ZArith Ascii.

Local Open Scope Z_scope.

(** ** JavaScript values *)

Definition loc := positive.
Bind Scope positive_scope with loc.

(** Function values. [FnOnerror] and [FnInspect] are the prototype methods
    the source stores as values ([this.onerror], [this.inspect]);
    [FnKoaCompose] is the imported [koa-compose]; every other function
    (middleware, user hooks, composed pipelines) is [FnUser]. *)
Inductive fn :=
| FnOnerror
| FnInspect
| FnKoaCompose
| FnUser (id : nat).

Inductive value :=
| VUndefined
| VNull
| VBool (b : bool)
| VNum (n : Z)
| VNaN
| VBigInt (n : Z)
| VStr (s : string)
| VFun (f : fn)
| VRef (l : loc).

#[global] Instance fn_eq_dec : EqDecision fn.
Proof. solve_decision. Defined.

#[global] Instance value_eq_dec : EqDecision value.
Proof. solve_decision. Defined.

(** [ToBoolean]. *)
Definition truthy (v : value) : bool :=
  match v with
  | VUndefined | VNull | VNaN => false
  | VBool b => b
  | VNum n | VBigInt n => negb (n =? 0)
  | VStr s => negb (String.eqb s "")
  | VFun _ | VRef _ => true
  end.

(** [a || b] on values. *)
Definition js_or (a b : value) : value := if truthy a then a else b.

(** [v == null]. *)
Definition nullish (v : value) : bool :=
  match v with
  | VUndefined | VNull => true
  | _ => false
  end.

(** [a === b]; [NaN] is not equal to itself. *)
Definition strict_eq (a b : value) : bool :=
  match a, b with
  | VNaN, _ | _, VNaN => false
  | _, _ => bool_decide (a = b)
  end.

(** [typeof v === 'function']. *)
Definition is_function (v : value) : bool :=
  match v with
  | VFun _ => true
  | _ => false
  end.

(** [Number.isInteger]. *)
Definition Number_isInteger (v : value) : bool :=
  match v with
  | VNum _ => true
  | _ => false
  end.

(** [String(v)] on primitives; a reference prints as an ordinary object
    does by default, a function by a placeholder for its source text. *)
Definition js_String (v : value) : string :=
  match v with
  | VUndefined => "undefined"
  | VNull => "null"
  | VBool true => "true"
  | VBool false => "false"
  | VNum n | VBigInt n => pretty n
  | VNaN => "NaN"
  | VStr s => s
  | VFun _ => "function () { [code] }"
  | VRef _ => "[object Object]"
  end.

(** ** The object heap *)

(** Node's [IncomingMessage], as far as the source reads it. *)
Record IncomingMessage := {
  url : value;
  httpVersionMajor : Z
}.

(** Node's [ServerResponse], as far as the source reads and writes it. *)
Record ServerResponse := {
  statusCode : Z;
  headersSent : bool;
  headers : gmap string value
}.

(** An object that answers the two tests of [onerror]: the
    [Object.prototype.toString] tag and [instanceof Error]. *)
Record ErrorObj := {
  tagged_Error : bool;
  instanceof_Error : bool;
  err_name : string;
  err_message : string;
  err_props : gmap string value
}.

Inductive cell :=
| CObj (proto : option loc) (props : gmap string value)
| CError (e : ErrorObj)
| CArray (elems : list value)
| CBuffer (bytes : string)
| CStream
| CStorage (store : value)
| CReq (r : IncomingMessage)
| CRes (r : ServerResponse).

(** What reaches the transport, the error-reporting channel and
    [on-finished], in the order it happens. *)
Inductive event :=
| EvEnd (res : loc) (chunk : option value)
| EvPipe (body : loc) (res : value)
| EvOnFinished (res : value) (ctx : value)
| EvConsoleError (text : string).

Record World := {
  heap : gmap loc cell;
  listeners : gmap loc (gmap string (list value));
  log : list event
}.

Definition with_heap (h : gmap loc cell) (w : World) : World :=
  {| heap := h; listeners := listeners w; log := log w |}.

Definition with_listeners (ls : gmap loc (gmap string (list value))) (w : World) : World :=
  {| heap := heap w; listeners := ls; log := log w |}.

Definition emit_event (ev : event) (w : World) : World :=
  {| heap := heap w; listeners := listeners w; log := log w ++ [ev] |}.

(** ** Computations *)

Inductive completion (A : Type) :=
| Normal (a : A)
| Throw (e : value).

Arguments Normal {A} a.
Arguments Throw {A} e.

Definition M (A : Type) : Type := World -> completion A * World.

Definition ret {A} (a : A) : M A := fun w => (Normal a, w).

Definition throw {A} (e : value) : M A := fun w => (Throw e, w).

Definition bind {A B} (c : M A) (k : A -> M B) : M B :=
  fun w =>
    match c w with
    | (Normal a, w') => k a w'
    | (Throw e, w') => (Throw e, w')
    end.

Definition gets {A} (f : World -> A) : M A := fun w => (Normal (f w), w).

Definition modify (f : World -> World) : M unit := fun w => (Normal tt, f w).

Notation "'do' x <- c ; k" := (bind c (fun x => k))
  (at level 10, x name, c at level 100, k at level 200).
Notation "'do_' c ; k" := (bind c (fun _ => k))
  (at level 10, c at level 100, k at level 200).

(** [Object.create(proto)], [{}], [[]], [new ...]: a fresh cell. *)
Definition alloc (c : cell) : M loc :=
  fun w =>
    let l := fresh (dom (heap w)) in
    (Normal l, with_heap (<[l := c]> (heap w)) w).

(** [new TypeError(message)], thrown. *)
Definition type_error (message : string) : ErrorObj :=
  {| tagged_Error := true; instanceof_Error := true;
     err_name := "TypeError"; err_message := message; err_props := ∅ |}.

Definition throw_TypeError {A} (message : string) : M A :=
  do l <- alloc (CError (type_error message));
  throw (VRef l).

(** Property lookup along the prototype chain of ordinary objects. *)
Fixpoint lookup_chain (fuel : nat) (h : gmap loc cell) (l : loc) (k : string) : value :=
  match h !! l with
  | Some (CObj proto props) =>
      match props !! k with
      | Some v => v
      | None =>
          match proto, fuel with
          | Some p, S fuel' => lookup_chain fuel' h p k
          | _, _ => VUndefined
          end
      end
  | _ => VUndefined
  end.

Definition cell_get (h : gmap loc cell) (l : loc) (k : string) : value :=
  match h !! l with
  | Some (CObj _ _) => lookup_chain (size h) h l k
  | Some (CError e) => default VUndefined (err_props e !! k)
  | Some (CArray elems) =>
      if String.eqb k "length" then VNum (Z.of_nat (length elems)) else VUndefined
  | Some (CReq r) =>
      if String.eqb k "url" then url r
      else if String.eqb k "httpVersionMajor" then VNum (httpVersionMajor r)
      else VUndefined
  | Some (CRes r) =>
      if String.eqb k "statusCode" then VNum (statusCode r)
      else if String.eqb k "headersSent" then VBool (headersSent r)
      else VUndefined
  | _ => VUndefined
  end.

(** Whether an ordinary object has the property at all, on itself or along
    its prototype chain: a property that is there with the value
    [undefined] is found, with that value. *)
Fixpoint find_chain (fuel : nat) (h : gmap loc cell) (l : loc) (k : string)
  : option value :=
  match h !! l with
  | Some (CObj proto props) =>
      match props !! k with
      | Some v => Some v
      | None =>
          match proto, fuel with
          | Some p, S fuel' => find_chain fuel' h p k
          | _, _ => None
          end
      end
  | _ => None
  end.

(** [o.k]: reading a property of [undefined] or [null] throws; the other
    primitives and functions have none of the properties read here. *)
Definition prop_of (h : gmap loc cell) (o : value) (k : string) : value :=
  match o with
  | VRef l => cell_get h l k
  | _ => VUndefined
  end.

Definition get (o : value) (k : string) : M value :=
  if nullish o then throw_TypeError ("Cannot read properties of " +:+ js_String o)
  else gets (fun w => prop_of (heap w) o k).

(** Modelled from the spec: [context.js], [request.js] and [response.js] are
    not among the sources. The spec has the context expose a writable flag,
    a mutable status, body and length and an [onerror] method; what these
    accessors return is read with [get], and what they are assigned is
    stored by [set], as a property of the object named in the source.
    Otherwise [set] is [o.k = v] in strict mode. *)
Definition set (o : value) (k : string) (v : value) : M unit :=
  match o with
  | VUndefined | VNull =>
      throw_TypeError ("Cannot set properties of " +:+ js_String o)
  | VRef l =>
      fun w =>
        match heap w !! l with
        | Some (CObj proto props) =>
            (Normal tt, with_heap (<[l := CObj proto (<[k := v]> props)]> (heap w)) w)
        | Some (CError e) =>
            (Normal tt,
             with_heap (<[l := CError {| tagged_Error := tagged_Error e;
                                         instanceof_Error := instanceof_Error e;
                                         err_name := err_name e;
                                         err_message := err_message e;
                                         err_props := <[k := v]> (err_props e) |}]>
                          (heap w)) w)
        | Some (CRes r) =>
            match v with
            | VNum n =>
                if String.eqb k "statusCode"
                then (Normal tt,
                      with_heap (<[l := CRes {| statusCode := n;
                                                headersSent := headersSent r;
                                                headers := headers r |}]> (heap w)) w)
                else (Normal tt, w)
            | _ => (Normal tt, w)
            end
        | _ => (Normal tt, w)
        end
  | VFun _ => ret tt
  | _ => throw_TypeError ("Cannot create property on " +:+ js_String o)
  end.

(** [try { c } catch (e) { ... }]: the completion of [c] as a value. *)
Definition attempt {A} (c : M A) : M (completion A) :=
  fun w => let '(r, w') := c w in (Normal r, w').

Definition cell_of (v : value) : M (option cell) :=
  match v with
  | VRef l => gets (fun w => heap w !! l)
  | _ => ret None
  end.

(** [Object.create(proto)]. *)
Definition Object_create (proto : value) : M value :=
  match proto with
  | VRef p => do l <- alloc (CObj (Some p) ∅); ret (VRef l)
  | VNull => do l <- alloc (CObj None ∅); ret (VRef l)
  | _ => throw_TypeError "Object prototype may only be an Object or null"
  end.

(** The object literal [{}]. *)
Definition new_object : M value :=
  do l <- alloc (CObj None ∅); ret (VRef l).

(** [arr.push(v)]. *)
Definition Array_push (arr : value) (v : value) : M unit :=
  do c <- cell_of arr;
  match arr, c with
  | VRef l, Some (CArray elems) =>
      modify (fun w => with_heap (<[l := CArray (elems ++ [v])]> (heap w)) w)
  | VUndefined, _ | VNull, _ =>
      throw_TypeError ("Cannot read properties of " +:+ js_String arr)
  | _, _ => throw_TypeError "push is not a function"
  end.

(** ** Collaborators *)

(** How a promise has settled when the run of one request is over. *)
Inductive settlement :=
| Pending
| Fulfilled
| Rejected (e : value).

#[global] Instance settlement_eq_dec : EqDecision settlement.
Proof. solve_decision. Defined.

(** The code behind function values and the engine's [JSON.stringify]:
    [call f this args] runs a function to its completion, [call_async f args]
    runs a promise-returning function until the promise it returned has
    settled (or stays pending), [JSON_stringify v] yields a string or
    [undefined], or throws. *)
Record Host := {
  call : fn -> value -> list value -> M value;
  call_async : fn -> list value -> M settlement;
  JSON_stringify : value -> M value
}.

(** What the module imports: the three template objects, the [statuses]
    registry of body-less codes, [process.env.NODE_ENV] and whether the
    running Node has [util.inspect.custom] and [AsyncLocalStorage]. *)
Record Imports := {
  context_module : value;
  request_module : value;
  response_module : value;
  statuses_empty : gmap string value;
  NODE_ENV : value;
  has_inspect_custom : bool;
  has_AsyncLocalStorage : bool
}.

(** [statuses.empty] of the [statuses] package. *)
Definition node_statuses_empty : gmap string value :=
  <["204" := VBool true]> (<["205" := VBool true]> (<["304" := VBool true]> ∅)).

(** The key under which [util.inspect.custom] is stored. *)
Definition inspect_custom_key : string := "Symbol(nodejs.util.inspect.custom)".

Definition to_lower_ascii (c : ascii) : ascii :=
  let n := nat_of_ascii c in
  if ((65 <=? n)%nat && (n <=? 90)%nat)%bool then ascii_of_nat (n + 32) else c.

Fixpoint toLowerCase (s : string) : string :=
  match s with
  | EmptyString => EmptyString
  | String c rest => String (to_lower_ascii c) (toLowerCase rest)
  end.

(** [Buffer.byteLength(v)]. *)
Definition Buffer_byteLength (v : value) : M Z :=
  do c <- cell_of v;
  match v, c with
  | VStr s, _ => ret (Z.of_nat (String.length s))
  | _, Some (CBuffer bytes) => ret (Z.of_nat (String.length bytes))
  | _, _ => throw_TypeError "The argument must be of type string or an instance of Buffer"
  end.

(** [res.end()] and [res.end(chunk)] on the outgoing response. *)
Definition res_end (res : value) (chunk : option value) : M unit :=
  do c <- cell_of res;
  match res, c with
  | VRef l, Some (CRes _) => modify (emit_event (EvEnd l chunk))
  | VUndefined, _ | VNull, _ =>
      throw_TypeError ("Cannot read properties of " +:+ js_String res)
  | _, _ => throw_TypeError "res.end is not a function"
  end.

(** [body.pipe(res)] on a readable stream. *)
Definition stream_pipe (body : loc) (res : value) : M unit :=
  modify (emit_event (EvPipe body res)).

(** [onFinished(res, err => ctx.onerror(err))] of the [on-finished] package:
    the listener is recorded, to be run when the response is over. *)
Definition onFinished (res ctx : value) : M unit :=
  modify (emit_event (EvOnFinished res ctx)).

(** [console.error(text)]. *)
Definition console_error (text : string) : M unit :=
  modify (emit_event (EvConsoleError text)).

(** Node's [events]: the constructor ([super()]), [listenerCount(name)] and
    [on(name, f)], which accepts functions only. *)
Definition listeners_of (w : World) (this : loc) (name : string) : list value :=
  default [] (default ∅ (listeners w !! this) !! name).

Definition Emitter_init (this : loc) : M unit :=
  modify (fun w => with_listeners (<[this := ∅]> (listeners w)) w).

Definition listenerCount (this : loc) (name : string) : M nat :=
  gets (fun w => length (listeners_of w this name)).

Definition on (this : loc) (name : string) (f : value) : M unit :=
  if is_function f
  then
    modify (fun w =>
      with_listeners
        (<[this := <[name := listeners_of w this name ++ [f]]>
                     (default ∅ (listeners w !! this))]> (listeners w)) w)
  else throw_TypeError "The listener argument must be of type function".

(** Modelled from the spec: [response.js] is not part of the sources. The
    response wrapper's [has(field)] tells whether a header field is set on
    the outgoing response it wraps, and [remove(field)] strips it; field
    names compare without case. *)
Definition response_headers (response : value) : M (loc * ServerResponse) :=
  do res <- get response "res";
  do c <- cell_of res;
  match res, c with
  | VRef l, Some (CRes r) => ret (l, r)
  | _, _ => throw_TypeError "the response wraps no outgoing message"
  end.

Definition response_has (response : value) (field : string) : M bool :=
  do lr <- response_headers response;
  ret (bool_decide (is_Some (headers (snd lr) !! toLowerCase field))).

Definition response_remove (response : value) (field : string) : M unit :=
  do lr <- response_headers response;
  let '(l, r) := lr in
  modify (fun w =>
    with_heap (<[l := CRes {| statusCode := statusCode r;
                              headersSent := headersSent r;
                              headers := delete (toLowerCase field) (headers r) |}]>
                 (heap w)) w).

(** [req.httpVersionMajor >= 2]: the protocol version is a number on Node's
    incoming message; a value that is not a number compares false here
    ([ToNumber] of strings and objects is not modelled). *)
Definition httpVersionMajor_ge (req : value) (n : Z) : M bool :=
  do v <- get req "httpVersionMajor";
  ret match v with
      | VNum major => n <=? major
      | _ => false
      end.

(** [AsyncLocalStorage]: [getStore()] and [run(store, async () => ...)].
    The store is set while the callback runs and put back afterwards; an
    exception of the [async] callback rejects the promise it returns. *)
Definition storage_getStore (st : value) : M value :=
  do c <- cell_of st;
  match c with
  | Some (CStorage store) => ret store
  | _ => throw_TypeError "this.ctxStorage.getStore is not a function"
  end.

Definition storage_put (l : loc) (store : value) : M unit :=
  modify (fun w => with_heap (<[l := CStorage store]> (heap w)) w).

Definition storage_run (st : value) (store : value) (body : M settlement) : M settlement :=
  do c <- cell_of st;
  match st, c with
  | VRef l, Some (CStorage outer) =>
      do_ storage_put l store;
      do r <- attempt body;
      do_ storage_put l outer;
      ret match r with
          | Normal s => s
          | Throw e => Rejected e
          end
  | _, _ => throw_TypeError "this.ctxStorage.run is not a function"
  end.

(** The package [only]: [obj = obj || {}], then a reduction over the keys
    that starts from [{}] and runs
    [if (null == obj[key]) return ret; ret[key] = obj[key]; return ret]. *)
Fixpoint only_reduce (obj : value) (keys : list string) (acc : value) : M unit :=
  match keys with
  | [] => ret tt
  | key :: rest =>
      do v <- get obj key;
      do_ (if nullish v then ret tt else set acc key v);
      only_reduce obj rest acc
  end.

Definition only (obj : value) (keys : list string) : M value :=
  do obj' <- (if truthy obj then ret obj else new_object);
  do acc <- new_object;
  do_ only_reduce obj' keys acc;
  ret acc.

(** [msg.replace(/^/gm, '  ')]: two spaces at the start of the text and
    after every line terminator (LF, CR, U+2028, U+2029). *)
Definition ends_line (p2 p1 c : ascii) : bool :=
  let n := nat_of_ascii c in
  ((n =? 10) || (n =? 13)
   || ((nat_of_ascii p2 =? 226) && (nat_of_ascii p1 =? 128)
       && ((n =? 168) || (n =? 169))))%nat%bool.

Fixpoint indent_after (p2 p1 : ascii) (s : string) : string :=
  match s with
  | EmptyString => EmptyString
  | String c rest =>
      let tail := indent_after p1 c rest in
      String c (if ends_line p2 p1 c then "  " +:+ tail else tail)
  end.

Definition indent (s : string) : string :=
  "  " +:+ indent_after zero zero s.

(** [Error.prototype.toString]. *)
Definition Error_toString (e : ErrorObj) : string :=
  if String.eqb (err_name e) "" then err_message e
  else if String.eqb (err_message e) "" then err_name e
  else err_name e +:+ ": " +:+ err_message e.

(** Modelled from the spec: the package [koa-compose] is not among the
    sources. The spec has [compose] turn the ordered list into a single
    callable that runs the middleware in registration order, each one being
    given the rest of the chain as [next], and has the chain frozen once
    composition has produced a pipeline. So [koa_compose] checks that it is
    given an array of functions and keeps the list as it is at that moment
    in an array of its own; the pipeline it returns, [pipeline_over copy],
    the function [FnUser (1000 + copy)], runs that list when it is called
    ([dispatch]). How one middleware function runs on a context, given the
    rest of the chain, is the parameter [run]. *)
Section Compose.

Variable run : value -> value -> M settlement -> M settlement.

Fixpoint run_chain (ms : list value) (ctx : value) : M settlement :=
  match ms with
  | [] => ret Fulfilled
  | m :: rest => run m ctx (run_chain rest ctx)
  end.

Definition pipeline_over (l : loc) : value := VFun (FnUser (1000 + Pos.to_nat l)).

Definition dispatch (l : loc) (ctx : value) : M settlement :=
  do c <- cell_of (VRef l);
  match c with
  | Some (CArray ms) => run_chain ms ctx
  | _ => ret Fulfilled
  end.

Definition koa_compose (middleware : value) : M value :=
  do c <- cell_of middleware;
  match middleware, c with
  | VRef arr, Some (CArray ms) =>
      if forallb is_function ms
      then do copy <- alloc (CArray ms); ret (pipeline_over copy)
      else throw_TypeError "Middleware must be composed of functions!"
  | _, _ => throw_TypeError "Middleware stack must be an array!"
  end.

End Compose.

(** ** The Application class *)

Section Application.

Variable host : Host.
Variable env : Imports.

(** Calling a value: only functions can be called. *)
Definition invoke (f : value) (this : value) (args : list value) : M value :=
  match f with
  | VFun g => call host g this args
  | _ => throw_TypeError (js_String f +:+ " is not a function")
  end.

Definition invoke_async (f : value) (args : list value) : M settlement :=
  match f with
  | VFun g => call_async host g args
  | _ => throw_TypeError (js_String f +:+ " is not a function")
  end.

(** A prototype method read as a value ([this.inspect], [this.onerror]):
    a property of that name on the object shadows it, whatever its value,
    [undefined] included. *)
Definition method_of (h : gmap loc cell) (this : loc) (name : string) (m : fn) : value :=
  default (VFun m) (find_chain (size h) h this name).

Definition method_value (this : loc) (name : string) (m : fn) : M value :=
  gets (fun w => method_of (heap w) this name m).

(** [constructor (options)] *)
Definition constructor (this : loc) (options : value) : M unit :=
  do_ Emitter_init this;
  do options <- (if truthy options then ret options else new_object);
  do proxy <- get options "proxy";
  do_ set (VRef this) "proxy" (js_or proxy (VBool false));
  do subdomainOffset <- get options "subdomainOffset";
  do_ set (VRef this) "subdomainOffset" (js_or subdomainOffset (VNum 2));
  do proxyIpHeader <- get options "proxyIpHeader";
  do_ set (VRef this) "proxyIpHeader" (js_or proxyIpHeader (VStr "X-Forwarded-For"));
  do maxIpsCount <- get options "maxIpsCount";
  do_ set (VRef this) "maxIpsCount" (js_or maxIpsCount (VNum 0));
  do oenv <- get options "env";
  do_ set (VRef this) "env" (js_or (js_or oenv (NODE_ENV env)) (VStr "development"));
  do compose <- get options "compose";
  do_ set (VRef this) "compose" (js_or compose (VFun FnKoaCompose));
  do keys <- get options "keys";
  do_ (if truthy keys then set (VRef this) "keys" keys else ret tt);
  do middleware <- alloc (CArray []);
  do_ set (VRef this) "middleware" (VRef middleware);
  do context <- Object_create (context_module env);
  do_ set (VRef this) "context" context;
  do request <- Object_create (request_module env);
  do_ set (VRef this) "request" request;
  do response <- Object_create (response_module env);
  do_ set (VRef this) "response" response;
  do_ (if has_inspect_custom env
       then do inspect <- method_value this "inspect" FnInspect;
            set (VRef this) inspect_custom_key inspect
       else ret tt);
  do asyncLocalStorage <- get options "asyncLocalStorage";
  if truthy asyncLocalStorage
  then
    if has_AsyncLocalStorage env
    then do st <- alloc (CStorage VUndefined);
         set (VRef this) "ctxStorage" (VRef st)
    else
      do l <- alloc (CError {| tagged_Error := true; instanceof_Error := true;
                               err_name := "AssertionError";
                               err_message := "Requires node 12.17.0 or higher to enable asyncLocalStorage";
                               err_props := ∅ |});
      throw (VRef l)
  else ret tt.

(** [new Application(options)] *)
Definition new_Application (options : value) : M loc :=
  do this <- alloc (CObj None ∅);
  do_ constructor this options;
  ret this.

(** [toJSON ()] *)
Definition toJSON (this : loc) : M value :=
  only (VRef this) ["subdomainOffset"; "proxy"; "env"].

(** [inspect ()] *)
Definition inspect (this : loc) : M value :=
  toJSON this.

(** [use (fn)] *)
Definition use (this : loc) (fn : value) : M value :=
  if negb (is_function fn) then throw_TypeError "middleware must be a function!"
  else
    do middleware <- get (VRef this) "middleware";
    do_ Array_push middleware fn;
    ret (VRef this).

(** [respond (ctx)], the response helper at the end of the file. *)
Definition respond (ctx : value) : M unit :=
  do bypass <- get ctx "respond";
  if strict_eq bypass (VBool false) then ret tt
  else
  do writable <- get ctx "writable";
  if negb (truthy writable) then ret tt
  else
  do res <- get ctx "res";
  do body <- get ctx "body";
  do code <- get ctx "status";
  if truthy (default VUndefined (statuses_empty env !! js_String code))
  then
    do_ set ctx "body" VNull;
    res_end res None
  else
  do method <- get ctx "method";
  if strict_eq method (VStr "HEAD")
  then
    do headersSent <- get res "headersSent";
    do_ (if negb (truthy headersSent)
         then
           do response <- get ctx "response";
           do has <- response_has response "Content-Length";
           if negb has
           then
             do length <- get response "length";
             if Number_isInteger length then set ctx "length" length else ret tt
           else ret tt
         else ret tt);
    res_end res None
  else
  if nullish body
  then
    do response <- get ctx "response";
    do explicitNullBody <- get response "_explicitNullBody";
    if truthy explicitNullBody
    then
      do response <- get ctx "response";
      do_ response_remove response "Content-Type";
      do response <- get ctx "response";
      do_ response_remove response "Transfer-Encoding";
      do_ set ctx "length" (VNum 0);
      res_end res None
    else
      do req <- get ctx "req";
      do http2 <- httpVersionMajor_ge req 2;
      do body <- (if http2 then ret (VStr (js_String code))
                  else do message <- get ctx "message";
                       ret (js_or message (VStr (js_String code))));
      do headersSent <- get res "headersSent";
      do_ (if negb (truthy headersSent)
           then
             do_ set ctx "type" (VStr "text");
             do n <- Buffer_byteLength body;
             set ctx "length" (VNum n)
           else ret tt);
      res_end res (Some body)
  else
  do c <- cell_of body;
  match body, c with
  | _, Some (CBuffer _) => res_end res (Some body)
  | VStr _, _ => res_end res (Some body)
  | VRef stream, Some CStream => stream_pipe stream res
  | _, _ =>
      do body <- JSON_stringify host body;
      do headersSent <- get res "headersSent";
      do_ (if negb (truthy headersSent)
           then do n <- Buffer_byteLength body; set ctx "length" (VNum n)
           else ret tt);
      res_end res (Some body)
  end.

(** [onerror (err)], the default error handler. *)
Definition isNativeError (err : value) : M bool :=
  do c <- cell_of err;
  ret match c with
      | Some (CError e) => tagged_Error e || instanceof_Error e
      | _ => false
      end.

Definition err_toString (err : value) : M value :=
  do c <- cell_of err;
  ret match c with
      | Some (CError e) => VStr (Error_toString e)
      | _ => VStr (js_String err)
      end.

Definition onerror (this : loc) (err : value) : M unit :=
  do native <- isNativeError err;
  if negb native
  then
    do j <- JSON_stringify host err;
    throw_TypeError ("non-error thrown: " +:+ js_String j)
  else
  do status <- get err "status";
  do quiet <- (if strict_eq status (VNum 404) then ret true
               else do expose <- get err "expose"; ret (truthy expose));
  if quiet then ret tt
  else
  do silent <- get (VRef this) "silent";
  if truthy silent then ret tt
  else
  do stack <- get err "stack";
  do msg <- (if truthy stack then ret stack else err_toString err);
  match msg with
  | VStr text => console_error (String "010" (indent text +:+ String "010" ""))
  | _ => throw_TypeError "msg.replace is not a function"
  end.

(** [createContext (req, res)] *)
Definition createContext (this : loc) (req res : value) : M value :=
  do context_proto <- get (VRef this) "context";
  do context <- Object_create context_proto;
  do request_proto <- get (VRef this) "request";
  do request <- Object_create request_proto;
  do_ set context "request" request;
  do response_proto <- get (VRef this) "response";
  do response <- Object_create response_proto;
  do_ set context "response" response;
  do_ set response "app" (VRef this);
  do_ set request "app" (VRef this);
  do_ set context "app" (VRef this);
  do_ set response "req" req;
  do_ set request "req" req;
  do_ set context "req" req;
  do_ set response "res" res;
  do_ set request "res" res;
  do_ set context "res" res;
  do_ set response "ctx" context;
  do_ set request "ctx" context;
  do_ set request "response" response;
  do_ set response "request" request;
  do url <- get req "url";
  do_ set request "originalUrl" url;
  do_ set context "originalUrl" url;
  do state <- new_object;
  do_ set context "state" state;
  ret context.

(** [handleRequest (ctx, fnMiddleware)]. The promise
    [fnMiddleware(ctx).then(handleResponse).catch(onerror)] is followed to
    its settlement: [handleResponse] runs when the pipeline's promise is
    fulfilled, [onerror] when that promise or the one of [handleResponse]
    is rejected, and the returned promise takes the outcome of the last
    reaction that ran. *)
Definition ctx_onerror (ctx : value) (err : value) : M value :=
  do hook <- get ctx "onerror";
  invoke hook ctx [err].

Definition catch_onerror (ctx : value) (err : value) : M settlement :=
  do r <- attempt (ctx_onerror ctx err);
  ret match r with
      | Normal _ => Fulfilled
      | Throw e => Rejected e
      end.

Definition handleRequest (this : loc) (ctx : value) (fnMiddleware : value) : M settlement :=
  do res <- get ctx "res";
  do_ set res "statusCode" (VNum 404);
  do_ onFinished res ctx;
  do p <- invoke_async fnMiddleware [ctx];
  match p with
  | Pending => ret Pending
  | Fulfilled =>
      do r <- attempt (respond ctx);
      match r with
      | Normal _ => ret Fulfilled
      | Throw e => catch_onerror ctx e
      end
  | Rejected e => catch_onerror ctx e
  end.

(** [callback ()]: the request handler it returns is the function
    [handle fn]. *)
Definition handle (this : loc) (fn : value) (req res : value) : M settlement :=
  do ctx <- createContext this req res;
  do ctxStorage <- get (VRef this) "ctxStorage";
  if negb (truthy ctxStorage) then handleRequest this ctx fn
  else storage_run ctxStorage ctx (handleRequest this ctx fn).

Definition callback (this : loc) : M (value -> value -> M settlement) :=
  do compose <- get (VRef this) "compose";
  do middleware <- get (VRef this) "middleware";
  do fn <- invoke compose (VRef this) [middleware];
  do count <- listenerCount this "error";
  do_ (if (count =? 0)%nat
       then do h <- method_value this "onerror" FnOnerror; on this "error" h
       else ret tt);
  ret (handle this fn).

(** [get currentContext ()] *)
Definition currentContext (this : loc) : M value :=
  do ctxStorage <- get (VRef this) "ctxStorage";
  if truthy ctxStorage then storage_getStore ctxStorage else ret VUndefined.

(** [createAsyncCtxStorageMiddleware ()]: the middleware it returns is the
    function [asyncCtxStorage this], and [next] is the rest of the pipeline.
    An [async] function does not throw: what its body throws rejects the
    promise it returns. *)
Definition asyncCtxStorage (this : loc) (ctx : value) (next : M settlement) : M settlement :=
  do r <- attempt (do ctxStorage <- get (VRef this) "ctxStorage";
                   if nullish ctxStorage
                   then throw_TypeError ("Cannot read properties of " +:+ js_String ctxStorage)
                   else storage_run ctxStorage ctx next);
  ret match r with
      | Normal s => s
      | Throw e => Rejected e
      end.

Definition createAsyncCtxStorageMiddleware (this : loc)
  : M (value -> M settlement -> M settlement) :=
  ret (asyncCtxStorage this).

End Application.

(** ** A concrete host and world

    The functions, templates and transport pairs that the examples and the
    counterexamples run on. *)

Module Sample.

(** Middleware: 1 and 2 write their number to the error channel, 3 sets a
    status and a body, each of them awaiting [next()] afterwards; 4
    throws. *)
Definition run_middleware (m : value) (ctx : value) (next : M settlement) : M settlement :=
  match m with
  | VFun (FnUser 1) => do_ console_error "1"; next
  | VFun (FnUser 2) => do_ console_error "2"; next
  | VFun (FnUser 3) =>
      do_ set ctx "status" (VNum 200);
      do_ set ctx "body" (VStr "hello");
      next
  | VFun (FnUser 4) => ret (Rejected (VStr "boom"))
  | _ => next
  end.

(** The functions of the sample: [FnKoaCompose] is [koa_compose],
    [FnUser 7] a hook that throws, every other hook returns. *)
Definition sample_call (f : fn) (this : value) (args : list value) : M value :=
  match f, args with
  | FnKoaCompose, [middleware] => koa_compose middleware
  | FnUser 7, _ => throw (VStr "hook failed")
  | _, _ => ret VUndefined
  end.

(** The promise-returning functions: [FnUser 50] is fulfilled, [FnUser 51]
    rejected, [FnUser 52] never settles, and [FnUser (1000 + l)] is the
    pipeline over the list kept at [l], run with [run_middleware]. *)
Definition sample_call_async (f : fn) (args : list value) : M settlement :=
  match f, args with
  | FnUser 50, _ => ret Fulfilled
  | FnUser 51, _ => ret (Rejected (VStr "boom"))
  | FnUser 52, _ => ret Pending
  | FnUser n, [ctx] =>
      if (1000 <=? n)%nat then dispatch run_middleware (Pos.of_nat (n - 1000)) ctx
      else ret Fulfilled
  | _, _ => ret Fulfilled
  end.

(** A stand-in for [JSON.stringify]: strings are quoted without escapes
    and every object prints as an empty one. *)
Definition sample_stringify (v : value) : M value :=
  match v with
  | VBigInt _ => throw_TypeError "Do not know how to serialize a BigInt"
  | VFun _ | VUndefined => ret VUndefined
  | VRef _ => ret (VStr "{}")
  | VStr s => ret (VStr (String "034" (s +:+ String "034" EmptyString)))
  | VNaN => ret (VStr "null")
  | _ => ret (VStr (js_String v))
  end.

Definition host : Host :=
  {| call := sample_call; call_async := sample_call_async; JSON_stringify := sample_stringify |}.

Definition env : Imports :=
  {| context_module := VRef 1; request_module := VRef 2; response_module := VRef 3;
     statuses_empty := node_statuses_empty;
     NODE_ENV := VUndefined;
     has_inspect_custom := true;
     has_AsyncLocalStorage := true |}.

(** The context template answers the accessors with the values of a
    fresh HTTP/1.1 GET exchange. *)
Definition context_template : cell :=
  CObj None (<["writable" := VBool true]>
            (<["status" := VNum 404]>
            (<["message" := VStr "Not Found"]>
            (<["method" := VStr "GET"]>
            (<["onerror" := VFun (FnUser 8)]> ∅))))).

Definition req1_record : IncomingMessage := {| url := VStr "/one"; httpVersionMajor := 1 |}.
Definition req2_record : IncomingMessage := {| url := VStr "/two"; httpVersionMajor := 2 |}.
Definition res0_record : ServerResponse :=
  {| statusCode := 200; headersSent := false; headers := ∅ |}.

(** The templates at 1, 2 and 3, and two transport pairs: an HTTP/1.1
    request at 10 with its response at 11, an HTTP/2 request at 12 with its
    response at 13. *)
Definition world : World :=
  {| heap := <[1%positive := context_template]>
            (<[2%positive := CObj None ∅]>
            (<[3%positive := CObj None ∅]>
            (<[10%positive := CReq req1_record]>
            (<[11%positive := CRes res0_record]>
            (<[12%positive := CReq req2_record]>
            (<[13%positive := CRes res0_record]> ∅))))));
     listeners := ∅;
     log := [] |}.

(** The world after [new Application()]: the application is at 14. *)
Definition app : loc := 14.
Definition booted : World := snd (new_Application env VUndefined world).

(** A context at 20 in the middle of the first exchange, with its response
    wrapper at 22. *)
Definition ctx_props : gmap string value :=
  <["res" := VRef 11]> (<["req" := VRef 10]> (<["response" := VRef 22]> ∅)).

Definition exchange_with (ps : gmap string value) : World :=
  with_heap (<[20%positive := CObj (Some 1%positive) ps]>
            (<[22%positive := CObj (Some 3%positive) (<["res" := VRef 11]> ∅)]>
               (heap world))) world.

Definition exchange : World := exchange_with ctx_props.

(** The same context with status 204 and a body that must not be sent. *)
Definition no_content_props : gmap string value :=
  <["body" := VStr "ignored"]> (<["status" := VNum 204]> ctx_props).

(** The same context on the HTTP/2 request. *)
Definition http2_props : gmap string value := <["req" := VRef 12]> ctx_props.

(** The same context with a body that [JSON.stringify] refuses. *)
Definition bigint_props : gmap string value :=
  <["body" := VBigInt 1]> (<["status" := VNum 200]> ctx_props).

(** The same context with an [onerror] hook that throws. *)
Definition failing_hook_props : gmap string value :=
  <["onerror" := VFun (FnUser 7)]> ctx_props.

(** Two errors: an unexpected one at 30 and a routing miss at 31. *)
Definition boom : ErrorObj :=
  {| tagged_Error := true; instanceof_Error := true;
     err_name := "Error"; err_message := "boom";
     err_props := <["status" := VNum 500]>
                  (<["stack" := VStr ("Error: boom" +:+ String "010" "    at app.js:1:1")]> ∅) |}.

Definition miss : ErrorObj :=
  {| tagged_Error := true; instanceof_Error := true;
     err_name := "NotFoundError"; err_message := "Not Found";
     err_props := <["status" := VNum 404]> ∅ |}.

Definition with_errors : World :=
  with_heap (<[30%positive := CError boom]> (<[31%positive := CError miss]> (heap booted)))
    booted.

(** The own properties of the application in [booted]. *)
Definition app_props : gmap string value :=
  match heap booted !! app with
  | Some (CObj _ ps) => ps
  | _ => ∅
  end.

(** Options with falsy values, at 40. *)
Definition falsy_options : gmap string value :=
  <["subdomainOffset" := VNum 0]> (<["proxyIpHeader" := VStr ""]> (<["env" := VStr ""]> ∅)).

Definition with_options : World :=
  with_heap (<[40%positive := CObj None falsy_options]> (heap world)) world.

(** One request served by a handler obtained after the first [use]; in
    [late_registration] a second middleware is registered between
    [callback()] and the request. *)
Definition early_only : M settlement :=
  do app <- new_Application env VUndefined;
  do_ use app (VFun (FnUser 1));
  do handler <- callback host env app;
  handler (VRef 10) (VRef 11).

Definition late_registration : M settlement :=
  do app <- new_Application env VUndefined;
  do_ use app (VFun (FnUser 1));
  do handler <- callback host env app;
  do_ use app (VFun (FnUser 2));
  handler (VRef 10) (VRef 11).

(** [app.env = undefined], then [app.toJSON()]: the fields of the result. *)
Definition cleared_env_snapshot : M (gset string) :=
  do app <- new_Application env VUndefined;
  do_ set (VRef app) "env" VUndefined;
  do json <- toJSON app;
  do c <- cell_of json;
  ret match c with
      | Some (CObj _ ps) => dom ps
      | _ => ∅
      end.

End Sample.

(** * Specification vocabulary

    The notions the statements below are phrased in. *)

(** The fallback body in the words of the specification: the stringified
    status code from protocol version 2 on, otherwise the message text of
    the status or, failing that, the stringified status code. *)
Definition fallback_body (major : Z) (message code : value) : value :=
  if 2 <=? major then VStr (js_String code)
  else if truthy message then message
  else VStr (js_String code).

(** The response with its status set to 404. *)
Definition not_found (rr : ServerResponse) : ServerResponse :=
  {| statusCode := 404; headersSent := headersSent rr; headers := headers rr |}.

(** The world in which the pipeline starts: status 404 on the response and
    the finalization listener registered. *)
Definition before_pipeline (c r : loc) (rr : ServerResponse) (w : World) : World :=
  emit_event (EvOnFinished (VRef r) (VRef c))
    (with_heap (<[r := CRes (not_found rr)]> (heap w)) w).

(** A genuine error object: one that passes either test of [onerror]. *)
Definition genuine_error (h : gmap loc cell) (err : value) : bool :=
  match err with
  | VRef l =>
      match h !! l with
      | Some (CError e) => tagged_Error e || instanceof_Error e
      | _ => false
      end
  | _ => false
  end.

(** The diagnostic text: the stack when there is one, else the string
    form of the error. *)
Definition diagnostic_of (e : ErrorObj) : value :=
  js_or (default VUndefined (err_props e !! "stack")) (VStr (Error_toString e)).

(** Whether the default handler keeps quiet about an error. *)
Definition quiet (e : ErrorObj) (silent : value) : bool :=
  strict_eq (default VUndefined (err_props e !! "status")) (VNum 404)
  || truthy (default VUndefined (err_props e !! "expose"))
  || truthy silent.

Definition LF : ascii := "010"%char.

(** A text in which no line terminator starts: no LF, no CR and no lead
    byte of U+2028 or U+2029. *)
Fixpoint plain (s : string) : bool :=
  match s with
  | EmptyString => true
  | String c rest =>
      let n := nat_of_ascii c in
      (negb (n =? 10) && negb (n =? 13) && negb (n =? 226) && plain rest)%nat
  end.

(** [tracks w0 W ts]: the world [W] differs from [w0] exactly by the cells
    listed in [ts], all of them allocated since [w0]. *)
Record tracks (w0 W : World) (ts : list (loc * cell)) : Prop := {
  tracks_cells : forall i l c, ts !! i = Some (l, c) -> heap W !! l = Some c;
  tracks_new : forall i l c, ts !! i = Some (l, c) -> heap w0 !! l = None;
  tracks_nodup : NoDup ts.*1;
  tracks_old : forall l, l ∉ ts.*1 -> heap W !! l = heap w0 !! l;
  tracks_listeners : listeners W = listeners w0;
  tracks_log : log W = log w0
}.

Fixpoint replace_at {A} (i : nat) (x : A) (l : list A) : list A :=
  match l, i with
  | [], _ => []
  | _ :: rest, O => x :: rest
  | y :: rest, S i' => y :: replace_at i' x rest
  end.

(** The own properties of a new context, of its request and of its response,
    in the order [createContext] assigns them. *)
Definition context_props (this : loc) (req res request response url state : value)
  : gmap string value :=
  <["state" := state]> (<["originalUrl" := url]> (<["res" := res]> (<["req" := req]>
  (<["app" := VRef this]> (<["response" := response]> (<["request" := request]> ∅)))))).

Definition request_props (this : loc) (req res ctx response url : value)
  : gmap string value :=
  <["originalUrl" := url]> (<["response" := response]> (<["ctx" := ctx]>
  (<["res" := res]> (<["req" := req]> (<["app" := VRef this]> ∅))))).

Definition response_props (this : loc) (req res ctx request : value)
  : gmap string value :=
  <["request" := request]> (<["ctx" := ctx]> (<["res" := res]> (<["req" := req]>
  (<["app" := VRef this]> ∅)))).

(** The references a context is built with: the application, the raw pair,
    the request and response wrappers pointing at each other and back at
    the context, an empty state bag and the URL of the raw request. *)
Definition wired (w : World) (this : loc) (req res : value)
    (c request response state : loc) (target : value) : Prop :=
  cell_get (heap w) c "app" = VRef this
  /\ cell_get (heap w) request "app" = VRef this
  /\ cell_get (heap w) response "app" = VRef this
  /\ cell_get (heap w) c "req" = req
  /\ cell_get (heap w) request "req" = req
  /\ cell_get (heap w) response "req" = req
  /\ cell_get (heap w) c "res" = res
  /\ cell_get (heap w) request "res" = res
  /\ cell_get (heap w) response "res" = res
  /\ cell_get (heap w) c "request" = VRef request
  /\ cell_get (heap w) c "response" = VRef response
  /\ cell_get (heap w) request "response" = VRef response
  /\ cell_get (heap w) response "request" = VRef request
  /\ cell_get (heap w) request "ctx" = VRef c
  /\ cell_get (heap w) response "ctx" = VRef c
  /\ cell_get (heap w) c "state" = VRef state
  /\ heap w !! state = Some (CObj None ∅)
  /\ cell_get (heap w) c "originalUrl" = target.

(** What the constructor reads as [options.k]: the own property of the
    options object when it has one, [undefined] when [options] is no object. *)
Definition option_read (w : World) (options : value) (k : string) (v : value) : Prop :=
  (forall o p ops val,
     options = VRef o -> heap w !! o = Some (CObj p ops) -> ops !! k = Some val -> v = val)
  /\ ((forall o, options <> VRef o) -> v = VUndefined).

(** The snapshot in the words of the specification, with the proviso of
    [only]: the listed fields that are neither [null] nor [undefined]. *)
Definition snapshot (keys : list string) (ps : gmap string value) : gmap string value :=
  filter (fun kv => kv.1 ∈ keys /\ nullish kv.2 = false) ps.

(** One round of the reduction in [only]. *)
Definition only_pick (ps : gmap string value) (acc : gmap string value) (k : string)
  : gmap string value :=
  let v := default VUndefined (ps !! k) in
  if nullish v then acc else <[k := v]> acc.

(** An application as the constructor leaves it: its own settings are the
    options read, or their defaults, and its middleware list and templates
    are new objects. *)
Definition built (env : Imports) (mc mr ms : loc) (w : World) (options : value)
    (this : loc) (w' : World) : Prop :=
  exists ps vproxy vsub vhdr vmax venv vcompose vkeys arr c rq rs,
    heap w !! this = None
    /\ heap w' !! this = Some (CObj None ps)
    /\ (forall l x, heap w !! l = Some x -> heap w' !! l = Some x)
    /\ listeners w' = <[this := ∅]> (listeners w)
    /\ log w' = log w
    /\ option_read w options "proxy" vproxy
    /\ option_read w options "subdomainOffset" vsub
    /\ option_read w options "proxyIpHeader" vhdr
    /\ option_read w options "maxIpsCount" vmax
    /\ option_read w options "env" venv
    /\ option_read w options "compose" vcompose
    /\ option_read w options "keys" vkeys
    /\ ps !! "proxy" = Some (js_or vproxy (VBool false))
    /\ ps !! "subdomainOffset" = Some (js_or vsub (VNum 2))
    /\ ps !! "proxyIpHeader" = Some (js_or vhdr (VStr "X-Forwarded-For"))
    /\ ps !! "maxIpsCount" = Some (js_or vmax (VNum 0))
    /\ ps !! "env" = Some (js_or (js_or venv (NODE_ENV env)) (VStr "development"))
    /\ ps !! "compose" = Some (js_or vcompose (VFun FnKoaCompose))
    /\ ps !! "keys" = (if truthy vkeys then Some vkeys else None)
    /\ ps !! "silent" = None
    /\ ps !! "middleware" = Some (VRef arr)
    /\ heap w' !! arr = Some (CArray [])
    /\ heap w !! arr = None
    /\ ps !! "context" = Some (VRef c)
    /\ heap w' !! c = Some (CObj (Some mc) ∅)
    /\ ps !! "request" = Some (VRef rq)
    /\ heap w' !! rq = Some (CObj (Some mr) ∅)
    /\ ps !! "response" = Some (VRef rs)
    /\ heap w' !! rs = Some (CObj (Some ms) ∅).
(** ** Vocabulary of the response serializer *)

(** A context that [respond] serves: response handling is not bypassed, the
    context is writable, its raw response is the outgoing message at [r] and
    its status is not in the no-body class of the registry. *)
Definition serving (env : Imports) (w : World) (c r : loc) (rr : ServerResponse) : Prop :=
  strict_eq (cell_get (heap w) c "respond") (VBool false) = false
  /\ truthy (cell_get (heap w) c "writable") = true
  /\ cell_get (heap w) c "res" = VRef r
  /\ heap w !! r = Some (CRes rr)
  /\ truthy (default VUndefined
               (statuses_empty env !! js_String (cell_get (heap w) c "status"))) = false.

(** The outgoing message once [Content-Type] and [Transfer-Encoding] are
    stripped. *)
Definition without_body_headers (rr : ServerResponse) : ServerResponse :=
  {| statusCode := statusCode rr; headersSent := headersSent rr;
     headers := delete "transfer-encoding" (delete "content-type" (headers rr)) |}.

(** A body that is written as it is: a string or a [Buffer]. *)
Definition raw_body (h : gmap loc cell) (body : value) : bool :=
  match body with
  | VStr _ => true
  | VRef b =>
      match h !! b with
      | Some (CBuffer _) => true
      | _ => false
      end
  | _ => false
  end.

(** A body that is serialized as JSON: neither [null] nor [undefined], and
    no string, [Buffer] or stream. *)
Definition json_body (h : gmap loc cell) (body : value) : bool :=
  match body with
  | VUndefined | VNull | VStr _ => false
  | VRef b =>
      match h !! b with
      | Some (CBuffer _) | Some CStream => false
      | _ => true
      end
  | _ => true
  end.

(** What the transport receives from [respond]. *)
Definition transport (ev : event) : bool :=
  match ev with
  | EvEnd _ _ | EvPipe _ _ => true
  | _ => false
  end.

(** A computation that reaches neither the trace nor the listeners. *)
Definition inert {A} (c : M A) : Prop :=
  forall w r w', c w = (r, w') -> log w' = log w /\ listeners w' = listeners w.

(** A computation that hands one item to the transport as its last step, or
    throws before anything is handed over. *)
Definition sends_last (c : M unit) : Prop :=
  forall w r w',
    c w = (r, w') ->
    listeners w' = listeners w
    /\ match r with
       | Normal _ => exists ev, transport ev = true /\ log w' = log w ++ [ev]
       | Throw _ => log w' = log w
       end.

(** The two early exits of [respond]. *)
Definition bypassed (h : gmap loc cell) (ctx : value) : bool :=
  strict_eq (prop_of h ctx "respond") (VBool false)
  || negb (truthy (prop_of h ctx "writable")).

(** ** Vocabulary of the request handler *)

(** What [handleRequest] does once the promise of the pipeline has settled:
    the reactions of [.then(handleResponse).catch(onerror)]. *)
Definition after_pipeline (host : Host) (env : Imports) (ctx : value) (p : settlement)
  : M settlement :=
  match p with
  | Pending => ret Pending
  | Fulfilled =>
      do r <- attempt (respond host env ctx);
      match r with
      | Normal _ => ret Fulfilled
      | Throw e => catch_onerror host ctx e
      end
  | Rejected e => catch_onerror host ctx e
  end.

(** The promise of an [async] function whose body completed with [r]. *)
Definition async_outcome (r : completion settlement) : settlement :=
  match r with
  | Normal s => s
  | Throw e => Rejected e
  end.

(** The world with the store of the storage at [st] replaced. *)
Definition with_store (st : loc) (store : value) (w : World) : World :=
  with_heap (<[st := CStorage store]> (heap w)) w.

(** The world after [this.on('error', f)]. *)
Definition with_error_listener (this : loc) (f : value) (w : World) : World :=
  with_listeners
    (<[this := <["error" := listeners_of w this "error" ++ [f]]>
                 (default ∅ (listeners w !! this))]> (listeners w)) w.

(** [app.use(f1); app.use(f2); ...] *)
Fixpoint use_all (this : loc) (fns : list value) : M unit :=
  match fns with
  | [] => ret tt
  | f :: rest => do_ use this f; use_all this rest
  end.

(** ** Vocabulary of construction *)

(** The objects of a new application: the application itself, its
    middleware list and its three templates are objects that did not exist
    before, the templates inherit from the imported modules, and a context
    storage, when there is one, is new and empty. *)
Definition laid_out (mc mr ms : loc) (w : World) (this : loc) (w' : World) : Prop :=
  exists ps arr c rq rs,
    heap w' !! this = Some (CObj None ps)
    /\ ps !! "middleware" = Some (VRef arr)
    /\ ps !! "context" = Some (VRef c)
    /\ ps !! "request" = Some (VRef rq)
    /\ ps !! "response" = Some (VRef rs)
    /\ heap w' !! arr = Some (CArray [])
    /\ heap w' !! c = Some (CObj (Some mc) ∅)
    /\ heap w' !! rq = Some (CObj (Some mr) ∅)
    /\ heap w' !! rs = Some (CObj (Some ms) ∅)
    /\ heap w !! this = None
    /\ heap w !! arr = None
    /\ heap w !! c = None
    /\ heap w !! rq = None
    /\ heap w !! rs = None
    /\ (forall l x, heap w !! l = Some x -> heap w' !! l = Some x)
    /\ (ps !! "ctxStorage" = None
        \/ exists st,
             ps !! "ctxStorage" = Some (VRef st)
             /\ heap w' !! st = Some (CStorage VUndefined)
             /\ heap w !! st = None).

(** The properties that [createContext] assigns to a context. *)
Definition context_keys : list string :=
  ["request"; "response"; "app"; "req"; "res"; "originalUrl"; "state"].

(** ** Vocabulary of the diagnostic *)

Definition CR : ascii := "013"%char.

(** Lines joined by LF. *)
Fixpoint unlines (first : string) (rest : list string) : string :=
  match rest with
  | [] => first
  | l :: rest' => first +:+ String LF (unlines l rest')
  end.

(** ** More of the sample world *)

Module Cases.

Import Sample.

(** The exchange of [Sample] with the given properties on the context (at
    20) and on its response wrapper (at 22), a [Buffer] at 23 and a stream
    at 24. *)
Definition exchange_of (ps rps : gmap string value) : World :=
  with_heap (<[20%positive := CObj (Some 1%positive) ps]>
            (<[22%positive := CObj (Some 3%positive) rps]>
            (<[23%positive := CBuffer "abc"]>
            (<[24%positive := CStream]> (heap world))))) world.

Definition wrapper_props : gmap string value := <["res" := VRef 11]> ∅.

(** A HEAD request whose response knows its length. *)
Definition head_props : gmap string value := <["method" := VStr "HEAD"]> ctx_props.
Definition sized_wrapper : gmap string value := <["length" := VNum 5]> wrapper_props.

(** A response whose body was set to [null], with a type already set. *)
Definition null_wrapper : gmap string value :=
  <["_explicitNullBody" := VBool true]> wrapper_props.

Definition typed_record : ServerResponse :=
  {| statusCode := 200; headersSent := false;
     headers := <["content-type" := VStr "text/plain"]> ∅ |}.

Definition exchange_typed : World :=
  with_heap (<[11%positive := CRes typed_record]> (heap (exchange_of ctx_props null_wrapper)))
    world.

(** Bodies. *)
Definition with_body (body : value) : gmap string value :=
  <["body" := body]> (<["status" := VNum 200]> ctx_props).

(** A host whose pipelines fail synchronously. *)
Definition failing_host : Host :=
  {| call := sample_call;
     call_async := fun _ _ => throw (VStr "sync failure");
     JSON_stringify := sample_stringify |}.

(** An application whose [compose] is not a function, and one whose
    middleware list was replaced by a number. *)
Definition compose_is_number : World := snd (set (VRef app) "compose" (VNum 5) booted).
Definition middleware_is_number : World := snd (set (VRef app) "middleware" (VNum 1) booted).

(** An application built with [asyncLocalStorage], from options at 40. *)
Definition storage_options : gmap string value := <["asyncLocalStorage" := VBool true]> ∅.

Definition with_storage_options : World :=
  with_heap (<[40%positive := CObj None storage_options]> (heap world)) world.

Definition booted_with_storage : World :=
  snd (new_Application env (VRef 40) with_storage_options).

(** The own properties of that application, which is at 41. *)
Definition storage_app_props : gmap string value :=
  match heap booted_with_storage !! 41%positive with
  | Some (CObj _ ps) => ps
  | _ => ∅
  end.

(** A second application, built after the one of [booted]: it is at 20. *)
Definition booted_twice : World := snd (new_Application env VUndefined booted).

(** An application whose [onerror] was replaced by a number. *)
Definition onerror_is_number : World := snd (set (VRef app) "onerror" (VNum 5) booted).

(** A genuine error whose [stack] is a number, at 33. *)
Definition numeric_stack : ErrorObj :=
  {| tagged_Error := true; instanceof_Error := true;
     err_name := "Error"; err_message := "odd";
     err_props := <["status" := VNum 500]> (<["stack" := VNum 5]> ∅) |}.

Definition with_numeric_stack : World :=
  with_heap (<[33%positive := CError numeric_stack]> (heap with_errors)) with_errors.

(** A host on which formatting a value fails with a [RangeError]. *)
Definition range_error : ErrorObj :=
  {| tagged_Error := true; instanceof_Error := true;
     err_name := "RangeError"; err_message := "Maximum call stack size exceeded";
     err_props := ∅ |}.

Definition overflowing_host : Host :=
  {| call := sample_call;
     call_async := sample_call_async;
     JSON_stringify := fun _ => do l <- alloc (CError range_error); throw (VRef l) |}.

End Cases.

(** * Properties *)

(** ** Reasoning about computations *)

Lemma bind_Normal {A B} (c : M A) (k : A -> M B) w a w' :
  c w = (Normal a, w') -> bind c k w = k a w'.
Proof. intros H. unfold bind. by rewrite H. Qed.

Lemma bind_bind {A B C} (c : M A) (f : A -> M B) (g : B -> M C) w :
  bind (bind c f) g w = bind c (fun a => bind (f a) g) w.
Proof. unfold bind. destruct (c w) as [[a | e] w']; reflexivity. Qed.

Lemma bind_inv {A B} (c : M A) (k : A -> M B) w r w' :
  bind c k w = (r, w') ->
  (exists a w1, c w = (Normal a, w1) /\ k a w1 = (r, w'))
  \/ (exists e, c w = (Throw e, w') /\ r = Throw e).
Proof.
  unfold bind. destruct (c w) as [[a | e] w1]; intros H.
  - left. eauto.
  - right. exists e. by inversion H.
Qed.

Lemma bind_inv_Normal {A B} (c : M A) (k : A -> M B) w b w' :
  bind c k w = (Normal b, w') ->
  exists a w1, c w = (Normal a, w1) /\ k a w1 = (Normal b, w').
Proof.
  intros H. apply bind_inv in H as [H | (e & _ & H)]; [done | discriminate].
Qed.

Lemma get_ref l k w : get (VRef l) k w = (Normal (cell_get (heap w) l k), w).
Proof. reflexivity. Qed.

Lemma cell_get_own h l p ps k v :
  h !! l = Some (CObj p ps) -> ps !! k = Some v -> cell_get h l k = v.
Proof.
  intros Hl Hk. unfold cell_get. rewrite Hl.
  destruct (size h); simpl; by rewrite Hl, Hk.
Qed.

Lemma set_obj l p ps k v w :
  heap w !! l = Some (CObj p ps) ->
  set (VRef l) k v w
  = (Normal tt, with_heap (<[l := CObj p (<[k := v]> ps)]> (heap w)) w).
Proof. intros H. unfold set. by rewrite H. Qed.

Lemma set_obj_again l p ps k v h w :
  set (VRef l) k v (with_heap (<[l := CObj p ps]> h) w)
  = (Normal tt, with_heap (<[l := CObj p (<[k := v]> ps)]> h) w).
Proof.
  rewrite (set_obj l p ps) by apply lookup_insert_eq.
  cbn [with_heap heap listeners log]. by rewrite insert_insert_eq.
Qed.

Lemma cell_of_ref l w : cell_of (VRef l) w = (Normal (heap w !! l), w).
Proof. reflexivity. Qed.

Lemma res_end_Res l r chunk w :
  heap w !! l = Some (CRes r) ->
  res_end (VRef l) chunk w = (Normal tt, emit_event (EvEnd l chunk) w).
Proof. intros H. unfold res_end, bind. rewrite cell_of_ref, H. reflexivity. Qed.

Lemma Buffer_byteLength_VStr s w :
  Buffer_byteLength (VStr s) w = (Normal (Z.of_nat (String.length s)), w).
Proof. reflexivity. Qed.

Lemma CRes_not_CObj (h : gmap loc cell) c r p ps rr :
  h !! c = Some (CObj p ps) -> h !! r = Some (CRes rr) -> c <> r.
Proof. intros Hc Hr ->. rewrite Hc in Hr. discriminate. Qed.

Tactic Notation "mstep" uconstr(H) :=
  rewrite ?bind_bind; erewrite (bind_Normal _ _ _ _ _ H).

Lemma get_own l p ps k v w :
  heap w !! l = Some (CObj p ps) -> ps !! k = Some v ->
  get (VRef l) k w = (Normal v, w).
Proof. intros Hl Hk. rewrite get_ref. by erewrite cell_get_own. Qed.

Lemma get_url q rq w :
  heap w !! q = Some (CReq rq) -> get (VRef q) "url" w = (Normal (url rq), w).
Proof. intros Hq. rewrite get_ref. unfold cell_get. by rewrite Hq. Qed.

Lemma cell_get_absent h l ps k :
  h !! l = Some (CObj None ps) -> ps !! k = None -> cell_get h l k = VUndefined.
Proof.
  intros Hl Hk. unfold cell_get. rewrite Hl.
  destruct (size h); cbn; by rewrite Hl, Hk.
Qed.

Lemma find_chain_no_proto fuel h l ps k :
  h !! l = Some (CObj None ps) -> find_chain fuel h l k = ps !! k.
Proof. intros Hl. destruct fuel; cbn; rewrite Hl; by destruct (ps !! k). Qed.

Lemma cell_get_no_proto h l ps k :
  h !! l = Some (CObj None ps) -> cell_get h l k = default VUndefined (ps !! k).
Proof.
  intros Hl. unfold cell_get. rewrite Hl.
  destruct (size h); cbn; rewrite Hl; by destruct (ps !! k).
Qed.

Lemma new_object_eq w :
  new_object w
  = (Normal (VRef (fresh (dom (heap w)))),
     with_heap (<[fresh (dom (heap w)) := CObj None ∅]> (heap w)) w).
Proof. reflexivity. Qed.

Lemma truthy_not_nullish v : truthy v = true -> nullish v = false.
Proof. by destruct v. Qed.

Lemma get_not_nullish o k w :
  nullish o = false -> get o k w = (Normal (prop_of (heap w) o k), w).
Proof. intros H. unfold get. by rewrite H. Qed.

Lemma js_or_truthy v d : truthy v = false -> js_or v d = d.
Proof. unfold js_or. by intros ->. Qed.

Lemma js_or_not_nullish v d : nullish d = false -> nullish (js_or v d) = false.
Proof.
  intros Hd. unfold js_or. destruct (truthy v) eqn:Hv; [| done].
  by apply truthy_not_nullish.
Qed.

Lemma js_or_not_zero v : js_or v (VNum 2) <> VNum 0.
Proof.
  unfold js_or. destruct (truthy v) eqn:Hv; [| done].
  intros ->. discriminate.
Qed.

Lemma Emitter_init_eq this w :
  Emitter_init this w = (Normal tt, with_listeners (<[this := ∅]> (listeners w)) w).
Proof. reflexivity. Qed.

Lemma Array_push_array l elems v w :
  heap w !! l = Some (CArray elems) ->
  Array_push (VRef l) v w
  = (Normal tt, with_heap (<[l := CArray (elems ++ [v])]> (heap w)) w).
Proof. intros H. unfold Array_push. mstep (cell_of_ref l w). by rewrite H. Qed.

Lemma throw_TypeError_eq {A} message w :
  @throw_TypeError A message w
  = (Throw (VRef (fresh (dom (heap w)))),
     with_heap (<[fresh (dom (heap w)) := CError (type_error message)]> (heap w)) w).
Proof. reflexivity. Qed.

(** ** The response serializer *)

Section RespondProperties.

Variable host : Host.
Variable env : Imports.

(** C3. A context whose status is in the no-body class of the registry,
    that does not bypass response handling and is writable: [respond] sets
    the body of the context to [null] and ends the response without a
    chunk, whatever body was set before. *)
Theorem respond_empty_status (w : World) (c r : loc) (p : option loc)
    (ps : gmap string value) (rr : ServerResponse) :
  heap w !! c = Some (CObj p ps) ->
  strict_eq (cell_get (heap w) c "respond") (VBool false) = false ->
  truthy (cell_get (heap w) c "writable") = true ->
  cell_get (heap w) c "res" = VRef r ->
  heap w !! r = Some (CRes rr) ->
  truthy (default VUndefined
            (statuses_empty env !! js_String (cell_get (heap w) c "status"))) = true ->
  let w' := emit_event (EvEnd r None)
              (with_heap (<[c := CObj p (<["body" := VNull]> ps)]> (heap w)) w) in
  respond host env (VRef c) w = (Normal tt, w')
  /\ cell_get (heap w') c "body" = VNull
  /\ log w' = log w ++ [EvEnd r None].
Proof.
  intros Hc Hbypass Hwritable Hres Hr Hempty w'.
  split; [| split].
  - unfold respond.
    rewrite (bind_Normal _ _ _ _ _ (get_ref c "respond" w)), Hbypass.
    rewrite (bind_Normal _ _ _ _ _ (get_ref c "writable" w)), Hwritable. cbn [negb].
    rewrite (bind_Normal _ _ _ _ _ (get_ref c "res" w)), Hres.
    rewrite (bind_Normal _ _ _ _ _ (get_ref c "body" w)).
    rewrite (bind_Normal _ _ _ _ _ (get_ref c "status" w)), Hempty.
    rewrite (bind_Normal _ _ _ _ _ (set_obj c p ps "body" VNull w Hc)).
    apply res_end_Res with (r := rr).
    simpl. rewrite lookup_insert_ne; [done |].
    intros ->. rewrite Hc in Hr. discriminate.
  - apply cell_get_own with (p := p) (ps := <["body" := VNull]> ps).
    + simpl. apply lookup_insert_eq.
    + apply lookup_insert_eq.
  - reflexivity.
Qed.


End RespondProperties.

(** ** The request dispatcher *)

Section DispatchProperties.

Variable host : Host.
Variable env : Imports.

Lemma handleRequest_start this c r rr f w :
  cell_get (heap w) c "res" = VRef r ->
  heap w !! r = Some (CRes rr) ->
  handleRequest host env this (VRef c) (VFun f) w
  = (do p <- call_async host f [VRef c];
     match p with
     | Pending => ret Pending
     | Fulfilled =>
         do r <- attempt (respond host env (VRef c));
         match r with
         | Normal _ => ret Fulfilled
         | Throw e => catch_onerror host (VRef c) e
         end
     | Rejected e => catch_onerror host (VRef c) e
     end) (before_pipeline c r rr w).
Proof.
  intros Hres Hr. unfold handleRequest.
  mstep (get_ref c "res" w). rewrite Hres.
  assert (Hset : set (VRef r) "statusCode" (VNum 404) w
                 = (Normal tt, with_heap (<[r := CRes (not_found rr)]> (heap w)) w)).
  { unfold set. rewrite Hr. reflexivity. }
  mstep Hset.
  unfold onFinished at 1, modify at 1. unfold bind at 1.
  reflexivity.
Qed.

Lemma catch_onerror_hook c g e w :
  cell_get (heap w) c "onerror" = VFun g ->
  catch_onerror host (VRef c) e w
  = match call host g (VRef c) [e] w with
    | (Normal _, w') => (Normal Fulfilled, w')
    | (Throw e', w') => (Normal (Rejected e'), w')
    end.
Proof.
  intros Hg. unfold catch_onerror, ctx_onerror, attempt, bind.
  rewrite get_ref, Hg. cbn [invoke].
  by destruct (call host g (VRef c) [e] w) as [[v | e'] w'].
Qed.

Lemma catch_onerror_Rejected ctx e e' w w' :
  catch_onerror host ctx e w = (Normal (Rejected e'), w') ->
  ctx_onerror host ctx e w = (Throw e', w').
Proof.
  unfold catch_onerror, attempt, bind.
  destruct (ctx_onerror host ctx e w) as [[v | e0] w0]; cbn; intros [= <- <-]; done.
Qed.

(** C1. [handleRequest] sets status 404 on the outgoing response and only
    then runs the pipeline; when the pipeline's promise is fulfilled the
    context goes to [respond], and when it is rejected the error goes to
    the [onerror] hook of the context and [respond] is not run. *)
Theorem handleRequest_dispatch (this c r : loc) (rr : ServerResponse) (f : fn) (w : World) :
  cell_get (heap w) c "res" = VRef r ->
  heap w !! r = Some (CRes rr) ->
  let w1 := before_pipeline c r rr w in
  cell_get (heap w1) r "statusCode" = VNum 404
  /\ (forall w2,
        call_async host f [VRef c] w1 = (Normal Fulfilled, w2) ->
        handleRequest host env this (VRef c) (VFun f) w
        = match respond host env (VRef c) w2 with
          | (Normal _, w3) => (Normal Fulfilled, w3)
          | (Throw e, w3) => catch_onerror host (VRef c) e w3
          end)
  /\ (forall e w2 g,
        call_async host f [VRef c] w1 = (Normal (Rejected e), w2) ->
        cell_get (heap w2) c "onerror" = VFun g ->
        handleRequest host env this (VRef c) (VFun f) w
        = match call host g (VRef c) [e] w2 with
          | (Normal _, w3) => (Normal Fulfilled, w3)
          | (Throw e', w3) => (Normal (Rejected e'), w3)
          end).
Proof.
  intros Hres Hr w1. split; [| split].
  - unfold cell_get, w1, before_pipeline. cbn [emit_event with_heap heap].
    rewrite lookup_insert_eq. reflexivity.
  - intros w2 Hp. rewrite (handleRequest_start _ _ _ _ _ _ Hres Hr). fold w1.
    mstep Hp. unfold attempt, bind.
    by destruct (respond host env (VRef c) w2) as [[[] | e] w3].
  - intros e w2 g Hp Hg. rewrite (handleRequest_start _ _ _ _ _ _ Hres Hr). fold w1.
    mstep Hp. by apply catch_onerror_hook.
Qed.

(** C9, as amended. The promise returned by [handleRequest] is rejected only
    when the [onerror] hook of the context itself throws, and then with
    what the hook threw. An error thrown by [respond] after the pipeline
    was fulfilled is passed to that hook, and the promise is fulfilled
    when the hook returns. *)
Theorem handleRequest_rejects_only_from_onerror (this : loc) (ctx fnMiddleware : value)
    (w : World) :
  (forall e' w',
     handleRequest host env this ctx fnMiddleware w = (Normal (Rejected e'), w') ->
     exists e w3, ctx_onerror host ctx e w3 = (Throw e', w'))
  /\ (forall c r rr f w2 e w3,
        ctx = VRef c ->
        fnMiddleware = VFun f ->
        cell_get (heap w) c "res" = VRef r ->
        heap w !! r = Some (CRes rr) ->
        call_async host f [VRef c] (before_pipeline c r rr w) = (Normal Fulfilled, w2) ->
        respond host env (VRef c) w2 = (Throw e, w3) ->
        handleRequest host env this ctx fnMiddleware w = catch_onerror host ctx e w3
        /\ forall v w4,
             ctx_onerror host ctx e w3 = (Normal v, w4) ->
             handleRequest host env this ctx fnMiddleware w = (Normal Fulfilled, w4)).
Proof.
  split.
  - intros e' w' H. unfold handleRequest in H.
    apply bind_inv_Normal in H as (res & w0 & _ & H).
    apply bind_inv_Normal in H as (u1 & w1 & _ & H).
    apply bind_inv_Normal in H as (u2 & w2 & _ & H).
    apply bind_inv_Normal in H as (p & w3 & _ & H).
    destruct p as [| | e].
    + discriminate.
    + apply bind_inv_Normal in H as (x & w4 & _ & H).
      destruct x as [u | e]; [discriminate |].
      eauto using catch_onerror_Rejected.
    + eauto using catch_onerror_Rejected.
  - intros c r rr f w2 e w3 -> -> Hres Hr Hp Hthrow.
    assert (Heq : handleRequest host env this (VRef c) (VFun f) w
                  = catch_onerror host (VRef c) e w3).
    { rewrite (handleRequest_start _ _ _ _ _ _ Hres Hr).
      mstep Hp. unfold attempt at 1. unfold bind at 1. by rewrite Hthrow. }
    split; [exact Heq |].
    intros v w4 Hhook. rewrite Heq.
    unfold catch_onerror, attempt, bind. by rewrite Hhook.
Qed.

End DispatchProperties.

(** ** The default error handler *)

Lemma isNativeError_genuine err w :
  isNativeError err w = (Normal (genuine_error (heap w) err), w).
Proof. destruct err; reflexivity. Qed.

Section ErrorPolicy.

Variable host : Host.


End ErrorPolicy.

(** ** Indentation of the diagnostic *)

Lemma indent_after_first p2 p2' p1 s :
  nat_of_ascii p2 <> 226%nat -> nat_of_ascii p2' <> 226%nat ->
  indent_after p2 p1 s = indent_after p2' p1 s.
Proof.
  intros H H'. destruct s as [| c rest]; [reflexivity |].
  cbn [indent_after]. unfold ends_line.
  apply Nat.eqb_neq in H, H'. by rewrite H, H'.
Qed.

Lemma indent_after_restart p2 p2' p1 p1' s :
  nat_of_ascii p1 <> 128%nat -> nat_of_ascii p1' <> 128%nat ->
  nat_of_ascii p1 <> 226%nat -> nat_of_ascii p1' <> 226%nat ->
  indent_after p2 p1 s = indent_after p2' p1' s.
Proof.
  intros H H' G G'. destruct s as [| c rest]; [reflexivity |].
  cbn [indent_after]. unfold ends_line.
  apply Nat.eqb_neq in H, H'.
  rewrite H, H', !andb_false_r, !andb_false_l, !orb_false_r.
  by rewrite (indent_after_first p1 p1' c rest).
Qed.

Lemma append_empty (s : string) : "" +:+ s = s.
Proof. reflexivity. Qed.

Lemma append_String c (a s : string) : String c a +:+ s = String c (a +:+ s).
Proof. reflexivity. Qed.

Lemma indent_after_app_LF p2 p1 (a b : string) :
  indent_after p2 p1 (a +:+ String LF b)
  = indent_after p2 p1 a +:+ String LF ("  " +:+ indent_after zero zero b).
Proof.
  revert p2 p1. induction a as [| c a IH]; intros p2 p1.
  - rewrite append_empty. cbn [indent_after]. rewrite append_empty.
    replace (ends_line p2 p1 LF) with true by reflexivity.
    do 2 f_equal.
    apply indent_after_restart; by compute.
  - rewrite append_String. cbn [indent_after]. rewrite IH.
    destruct (ends_line p2 p1 c); by rewrite ?append_String.
Qed.

(** A line break starts a new indented line. *)
Lemma indent_app_LF (a b : string) :
  indent (a +:+ String LF b) = indent a +:+ String LF (indent b).
Proof.
  unfold indent. rewrite !append_String, !append_empty.
  by rewrite indent_after_app_LF.
Qed.

Lemma indent_after_plain p2 p1 s :
  nat_of_ascii p1 <> 226%nat ->
  (nat_of_ascii p2 <> 226%nat \/ nat_of_ascii p1 <> 128%nat) ->
  plain s = true -> indent_after p2 p1 s = s.
Proof.
  revert p2 p1. induction s as [| c s IH]; intros p2 p1 H1 H2 Hs; [reflexivity |].
  cbn [plain] in Hs.
  apply andb_true_iff in Hs as [Hs Hrest].
  apply andb_true_iff in Hs as [Hs H226].
  apply andb_true_iff in Hs as [H10 H13].
  apply negb_true_iff in H10, H13, H226.
  cbn [indent_after]. unfold ends_line. rewrite H10, H13.
  assert (Hpair : ((nat_of_ascii p2 =? 226)%nat && (nat_of_ascii p1 =? 128)%nat) = false).
  { destruct H2 as [H2 | H2]; apply Nat.eqb_neq in H2; rewrite H2;
      [reflexivity | apply andb_false_r]. }
  rewrite Hpair. cbn [orb andb]. f_equal.
  apply IH; [by apply Nat.eqb_neq | left; done | done].
Qed.

Lemma indent_plain s : plain s = true -> indent s = "  " +:+ s.
Proof.
  intros Hs. unfold indent. f_equal.
  apply indent_after_plain; [by compute | left; by compute | done].
Qed.

Example indent_two_lines :
  indent ("Error: boom" +:+ String LF "    at app.js:1:1")
  = "  Error: boom" +:+ String LF "      at app.js:1:1".
Proof. reflexivity. Qed.

(** ** Registration of middleware *)

(** C5. [use(fn)] throws a [TypeError] when [fn] is not a function, and the
    middleware list (like every object of the heap) is then left as it
    was; when [fn] is a function it is appended to the end of the list and
    the application itself is returned. *)
Theorem use_registers (this arr : loc) (elems : list value) (fn : value) (w : World) :
  cell_get (heap w) this "middleware" = VRef arr ->
  heap w !! arr = Some (CArray elems) ->
  (is_function fn = false ->
     exists l w',
       use this fn w = (Throw (VRef l), w')
       /\ heap w' !! l = Some (CError (type_error "middleware must be a function!"))
       /\ heap w' !! arr = Some (CArray elems)
       /\ (forall l', l' ∈ dom (heap w) -> heap w' !! l' = heap w !! l'))
  /\ (is_function fn = true ->
        use this fn w
        = (Normal (VRef this),
           with_heap (<[arr := CArray (elems ++ [fn])]> (heap w)) w)).
Proof.
  intros Hm Harr. split; intros Hfn; unfold use; rewrite Hfn; cbn [negb].
  - eexists _, _. split; [apply throw_TypeError_eq |].
    cbn [with_heap heap].
    assert (Hfresh : forall l', l' ∈ dom (heap w) -> fresh (dom (heap w)) <> l').
    { intros l' Hin Heq. rewrite <- Heq in Hin. by apply is_fresh in Hin. }
    split; [apply lookup_insert_eq |]. split.
    + rewrite lookup_insert_ne; [done |]. apply Hfresh, elem_of_dom. eauto.
    + intros l' Hin. rewrite lookup_insert_ne; [done | by apply Hfresh].
  - mstep (get_ref this "middleware" w). rewrite Hm.
    mstep (Array_push_array arr elems fn w Harr). reflexivity.
Qed.

(** ** Runs that allocate *)

Lemma tracks_init w : tracks w w [].
Proof. split; try done. constructor. Qed.

Lemma tracks_not_old w0 W ts l :
  tracks w0 W ts -> is_Some (heap w0 !! l) -> l ∉ ts.*1.
Proof.
  intros T [c Hc] Hin.
  apply list_elem_of_fmap in Hin as ([l' c'] & -> & Hin).
  apply list_elem_of_lookup in Hin as [i Hi].
  apply (tracks_new _ _ _ T) in Hi. cbn in Hc. congruence.
Qed.

Lemma tracks_lookup_old w0 W ts l c :
  tracks w0 W ts -> heap w0 !! l = Some c -> heap W !! l = Some c.
Proof.
  intros T Hc. rewrite (tracks_old _ _ _ T); [done |].
  eapply tracks_not_old; eauto.
Qed.

Lemma tracks_alloc w0 W ts c :
  tracks w0 W ts ->
  exists l W', alloc c W = (Normal l, W') /\ tracks w0 W' (ts ++ [(l, c)]).
Proof.
  intros T. eexists _, _. split; [reflexivity |].
  assert (Hl : heap W !! fresh (dom (heap W)) = None) by apply not_elem_of_dom, is_fresh.
  revert Hl. generalize (fresh (dom (heap W))). intros l Hl.
  assert (Hnot : l ∉ ts.*1).
  { intros Hin. apply list_elem_of_fmap in Hin as ([l' c'] & Heq & Hin).
    apply list_elem_of_lookup in Hin as [i Hi].
    apply (tracks_cells _ _ _ T) in Hi. cbn in Heq. congruence. }
  split; cbn [with_heap heap listeners log].
  - intros i l' c' Hi. apply lookup_app_Some in Hi as [Hi | [_ Hi]].
    + rewrite lookup_insert_ne; [by eapply tracks_cells |].
      intros ->. apply (tracks_cells _ _ _ T) in Hi. congruence.
    + destruct (i - length ts)%nat; [| done].
      cbn in Hi. injection Hi as <- <-. apply lookup_insert_eq.
  - intros i l' c' Hi. apply lookup_app_Some in Hi as [Hi | [_ Hi]].
    + by eapply tracks_new.
    + destruct (i - length ts)%nat; [| done].
      cbn in Hi. injection Hi as <- <-.
      by rewrite <- (tracks_old _ _ _ T).
  - rewrite fmap_app. apply NoDup_app. split; [by eapply tracks_nodup |].
    split; [| by apply NoDup_singleton].
    intros x Hx. cbn. rewrite list_elem_of_singleton. by intros ->.
  - intros l' Hl'. rewrite fmap_app in Hl'. cbn in Hl'.
    rewrite elem_of_app, list_elem_of_singleton in Hl'.
    rewrite lookup_insert_ne by naive_solver.
    apply (tracks_old _ _ _ T). naive_solver.
  - by eapply tracks_listeners.
  - by eapply tracks_log.
Qed.

Lemma tracks_update w0 W ts i l c c' :
  tracks w0 W ts ->
  ts !! i = Some (l, c) ->
  tracks w0 (with_heap (<[l := c']> (heap W)) W) (<[i := (l, c')]> ts).
Proof.
  intros T Hi.
  assert (Hfst : (<[i := (l, c')]> ts).*1 = ts.*1).
  { rewrite list_fmap_insert. apply list_insert_id.
    by rewrite list_lookup_fmap, Hi. }
  split; cbn [with_heap heap listeners log]; rewrite ?Hfst.
  - intros j l' c'' Hj. apply list_lookup_insert_Some in Hj as [(-> & Heq & _) | [Hne Hj]].
    + injection Heq as <- <-. apply lookup_insert_eq.
    + rewrite lookup_insert_ne; [by eapply tracks_cells |].
      intros <-. apply Hne.
      apply (NoDup_lookup _ _ _ l (tracks_nodup _ _ _ T));
        rewrite list_lookup_fmap; [by rewrite Hi | by rewrite Hj].
  - intros j l' c'' Hj. apply list_lookup_insert_Some in Hj as [(-> & Heq & _) | [Hne Hj]].
    + injection Heq as <- <-. by eapply tracks_new.
    + by eapply tracks_new.
  - by eapply tracks_nodup.
  - intros l' Hl'. rewrite lookup_insert_ne; [by apply (tracks_old _ _ _ T) |].
    intros <-. apply Hl'. apply list_elem_of_lookup. exists i.
    by rewrite list_lookup_fmap, Hi.
  - by eapply tracks_listeners.
  - by eapply tracks_log.
Qed.

Lemma tracks_set w0 W ts i l p ps k v :
  tracks w0 W ts ->
  ts !! i = Some (l, CObj p ps) ->
  exists W', set (VRef l) k v W = (Normal tt, W')
             /\ tracks w0 W' (<[i := (l, CObj p (<[k := v]> ps))]> ts).
Proof.
  intros T Hi. eexists. split.
  - apply set_obj. by eapply tracks_cells.
  - by eapply tracks_update.
Qed.

Lemma replace_at_insert {A} i (x : A) l : replace_at i x l = <[i := x]> l.
Proof. revert i. induction l as [| y l IH]; intros [| i]; cbn; by rewrite ?IH. Qed.

Lemma tracks_set_at w0 W ts i l p ps k v :
  tracks w0 W ts ->
  ts !! i = Some (l, CObj p ps) ->
  exists W', set (VRef l) k v W = (Normal tt, W')
             /\ tracks w0 W' (replace_at i (l, CObj p (<[k := v]> ps)) ts).
Proof. rewrite replace_at_insert. apply tracks_set. Qed.

Lemma tracks_Object_create w0 W ts p :
  tracks w0 W ts ->
  exists l W', Object_create (VRef p) W = (Normal (VRef l), W')
               /\ tracks w0 W' (ts ++ [(l, CObj (Some p) ∅)]).
Proof.
  intros T. destruct (tracks_alloc _ _ _ (CObj (Some p) ∅) T) as (l & W' & Hrun & T').
  exists l, W'. split; [| done]. unfold Object_create. by mstep Hrun.
Qed.

Lemma tracks_new_object w0 W ts :
  tracks w0 W ts ->
  exists l W', new_object W = (Normal (VRef l), W')
               /\ tracks w0 W' (ts ++ [(l, CObj None ∅)]).
Proof.
  intros T. destruct (tracks_alloc _ _ _ (CObj None ∅) T) as (l & W' & Hrun & T').
  exists l, W'. split; [| done]. unfold new_object. by mstep Hrun.
Qed.

Lemma tracks_get_old w0 W ts l p ps k v :
  tracks w0 W ts ->
  heap w0 !! l = Some (CObj p ps) ->
  ps !! k = Some v ->
  get (VRef l) k W = (Normal v, W).
Proof. intros T Hl Hk. eapply get_own; [by eapply tracks_lookup_old | done]. Qed.

(** The steps of a tracked run. *)
Ltac step_set_at i :=
  rewrite ?bind_bind;
  let W' := fresh "W" in
  let Hrun := fresh "Hrun" in
  let T' := fresh "T" in
  lazymatch goal with
  | T : tracks ?w0 ?W ?ts |- context [bind (set (VRef ?l) ?k ?v) _ ?W] =>
      destruct (tracks_set_at w0 W ts i l _ _ k v T eq_refl) as (W' & Hrun & T');
      rewrite (bind_Normal _ _ _ _ _ Hrun); clear Hrun T;
      cbn [replace_at app] in T'
  end.

Ltac step_set :=
  first [ step_set_at 0%nat | step_set_at 1%nat | step_set_at 2%nat
        | step_set_at 3%nat | step_set_at 4%nat | step_set_at 5%nat ].

Ltac step_alloc_with lem l :=
  rewrite ?bind_bind;
  let W' := fresh "W" in
  let Hrun := fresh "Hrun" in
  let T' := fresh "T" in
  lazymatch goal with
  | T : tracks ?w0 ?W ?ts |- _ =>
      destruct (lem w0 W ts T) as (l & W' & Hrun & T');
      rewrite (bind_Normal _ _ _ _ _ Hrun); clear Hrun T;
      cbn [replace_at app] in T'
  end.

Ltac step_create p l :=
  step_alloc_with (fun w0 W ts => tracks_Object_create w0 W ts p) l.

Ltac step_new_object l :=
  step_alloc_with tracks_new_object l.

Ltac step_get_old Hl Hk :=
  rewrite ?bind_bind;
  lazymatch goal with
  | T : tracks ?w0 ?W ?ts |- _ =>
      rewrite (bind_Normal _ _ _ _ _ (tracks_get_old w0 W ts _ _ _ _ _ T Hl Hk))
  end.

(** ** Contexts *)

Lemma createContext_cells (this q tc trq trs : loc) (pa : option loc)
    (pas : gmap string value) (rq : IncomingMessage) (res : value) (w : World) :
  heap w !! this = Some (CObj pa pas) ->
  pas !! "context" = Some (VRef tc) ->
  pas !! "request" = Some (VRef trq) ->
  pas !! "response" = Some (VRef trs) ->
  heap w !! q = Some (CReq rq) ->
  exists c request response state w',
    createContext this (VRef q) res w = (Normal (VRef c), w')
    /\ tracks w w'
         [(c, CObj (Some tc)
                (context_props this (VRef q) res (VRef request) (VRef response)
                   (url rq) (VRef state)));
          (request, CObj (Some trq)
                      (request_props this (VRef q) res (VRef c) (VRef response) (url rq)));
          (response, CObj (Some trs)
                       (response_props this (VRef q) res (VRef c) (VRef request)));
          (state, CObj None ∅)].
Proof.
  intros Hthis Hctx Hreq Hresp Hq.
  pose proof (tracks_init w) as T.
  unfold createContext.
  step_get_old Hthis Hctx.
  step_create tc c.
  step_get_old Hthis Hreq.
  step_create trq request.
  step_set.
  step_get_old Hthis Hresp.
  step_create trs response.
  do 14 step_set.
  lazymatch goal with
  | T : tracks _ ?W _ |- _ =>
      mstep (get_url q rq W (tracks_lookup_old _ _ _ _ _ T Hq))
  end.
  do 2 step_set.
  step_new_object state.
  step_set.
  eexists c, request, response, state, _. split; [reflexivity |].
  eassumption.
Qed.

Lemma wired_of_cells (w : World) this req res c request response state target tc trq trs :
  heap w !! c
  = Some (CObj tc (context_props this req res (VRef request) (VRef response)
                     target (VRef state))) ->
  heap w !! request
  = Some (CObj trq (request_props this req res (VRef c) (VRef response) target)) ->
  heap w !! response
  = Some (CObj trs (response_props this req res (VRef c) (VRef request))) ->
  heap w !! state = Some (CObj None ∅) ->
  wired w this req res c request response state target.
Proof.
  intros Hc Hrequest Hresponse Hstate. unfold wired.
  repeat split;
    first [ exact Hstate
          | eapply cell_get_own; [eassumption |];
            unfold context_props, request_props, response_props;
            repeat (rewrite lookup_insert_ne by done); apply lookup_insert_eq ].
Qed.

(** C6. [createContext] returns a new context that refers to the owning
    application and to the raw pair, as do its request and its response,
    which refer to each other and back to the context; its state is a new
    empty object and its [originalUrl] the URL of the raw request. A second
    call yields another context and another state bag, the first context is
    left as it was, and a property written to one state bag does not reach
    the other. *)
Theorem createContext_wiring (this q1 q2 tc trq trs : loc) (pa : option loc)
    (pas : gmap string value) (rq1 rq2 : IncomingMessage) (res1 res2 : value)
    (w : World) :
  heap w !! this = Some (CObj pa pas) ->
  pas !! "context" = Some (VRef tc) ->
  pas !! "request" = Some (VRef trq) ->
  pas !! "response" = Some (VRef trs) ->
  heap w !! q1 = Some (CReq rq1) ->
  heap w !! q2 = Some (CReq rq2) ->
  exists c1 request1 response1 state1 w1 c2 request2 response2 state2 w2,
    createContext this (VRef q1) res1 w = (Normal (VRef c1), w1)
    /\ wired w1 this (VRef q1) res1 c1 request1 response1 state1 (url rq1)
    /\ heap w !! c1 = None /\ heap w !! state1 = None
    /\ createContext this (VRef q2) res2 w1 = (Normal (VRef c2), w2)
    /\ wired w2 this (VRef q2) res2 c2 request2 response2 state2 (url rq2)
    /\ wired w2 this (VRef q1) res1 c1 request1 response1 state1 (url rq1)
    /\ c1 <> c2 /\ state1 <> state2
    /\ forall k v,
         exists w3,
           set (VRef state1) k v w2 = (Normal tt, w3)
           /\ cell_get (heap w3) state1 k = v
           /\ heap w3 !! state2 = Some (CObj None ∅)
           /\ cell_get (heap w3) c2 "state" = VRef state2.
Proof.
  intros Hthis Hctx Hreq Hresp Hq1 Hq2.
  destruct (createContext_cells this q1 tc trq trs pa pas rq1 res1 w
              Hthis Hctx Hreq Hresp Hq1)
    as (c1 & request1 & response1 & state1 & w1 & Hrun1 & T1).
  pose proof (tracks_cells _ _ _ T1 0%nat _ _ eq_refl) as Hc1.
  pose proof (tracks_cells _ _ _ T1 1%nat _ _ eq_refl) as Hrequest1.
  pose proof (tracks_cells _ _ _ T1 2%nat _ _ eq_refl) as Hresponse1.
  pose proof (tracks_cells _ _ _ T1 3%nat _ _ eq_refl) as Hstate1.
  destruct (createContext_cells this q2 tc trq trs pa pas rq2 res2 w1
              (tracks_lookup_old _ _ _ _ _ T1 Hthis) Hctx Hreq Hresp
              (tracks_lookup_old _ _ _ _ _ T1 Hq2))
    as (c2 & request2 & response2 & state2 & w2 & Hrun2 & T2).
  pose proof (tracks_cells _ _ _ T2 0%nat _ _ eq_refl) as Hc2.
  pose proof (tracks_cells _ _ _ T2 1%nat _ _ eq_refl) as Hrequest2.
  pose proof (tracks_cells _ _ _ T2 2%nat _ _ eq_refl) as Hresponse2.
  pose proof (tracks_cells _ _ _ T2 3%nat _ _ eq_refl) as Hstate2.
  assert (Hne : state1 <> state2).
  { intros ->. pose proof (tracks_new _ _ _ T2 3%nat _ _ eq_refl). congruence. }
  exists c1, request1, response1, state1, w1, c2, request2, response2, state2, w2.
  split; [exact Hrun1 |].
  split; [by eapply wired_of_cells |].
  split; [exact (tracks_new _ _ _ T1 0%nat _ _ eq_refl) |].
  split; [exact (tracks_new _ _ _ T1 3%nat _ _ eq_refl) |].
  split; [exact Hrun2 |].
  split; [by eapply wired_of_cells |].
  split; [eapply wired_of_cells; by eapply tracks_lookup_old |].
  split.
  { intros ->. pose proof (tracks_new _ _ _ T2 0%nat _ _ eq_refl). congruence. }
  split; [exact Hne |].
  intros k v. eexists. split.
  { apply set_obj. by eapply tracks_lookup_old. }
  cbn [with_heap heap]. split; [| split].
  - eapply cell_get_own; apply lookup_insert_eq.
  - by rewrite lookup_insert_ne.
  - eapply cell_get_own.
    + rewrite lookup_insert_ne; [exact Hc2 |].
      intros ->. pose proof (tracks_new _ _ _ T2 0%nat _ _ eq_refl). congruence.
    + apply lookup_insert_eq.
Qed.

(** ** The constructor *)

Lemma tracks_with_listeners w0 W ts ls :
  tracks w0 W ts -> tracks (with_listeners ls w0) (with_listeners ls W) ts.
Proof.
  intros T. split; cbn [with_listeners heap listeners log]; try apply T; try done.
Qed.

Lemma tracks_get_absent w0 W ts i l ps k :
  tracks w0 W ts ->
  ts !! i = Some (l, CObj None ps) ->
  ps !! k = None ->
  get (VRef l) k W = (Normal VUndefined, W).
Proof.
  intros T Hi Hk. rewrite get_ref.
  erewrite cell_get_absent; [done | by eapply tracks_cells | done].
Qed.

Lemma option_read_tracked w w0 W ts options k :
  tracks w0 W ts -> heap w0 = heap w ->
  option_read w options k (prop_of (heap W) options k).
Proof.
  intros T Hheap. split.
  - intros o p ops val -> Ho Hk. cbn [prop_of].
    eapply cell_get_own; [| exact Hk].
    eapply tracks_lookup_old; [exact T | by rewrite Hheap].
  - intros Hno. destruct options; try done. by destruct (Hno l).
Qed.

Lemma option_read_falsy w options k :
  truthy options = false -> option_read w options k VUndefined.
Proof. intros Hf. split; [| done]. by intros o p ops val ->. Qed.

Ltac step_alloc_cell c l :=
  step_alloc_with (fun w0 W ts => tracks_alloc w0 W ts c) l.

Ltac step_alloc_any l :=
  rewrite ?bind_bind;
  lazymatch goal with
  | |- context [bind (alloc ?c) _ _] => step_alloc_cell c l
  end.

Ltac absent_key :=
  repeat (rewrite lookup_insert_ne by done); apply lookup_empty.

Ltac present_key :=
  repeat (rewrite lookup_insert_ne by done); apply lookup_insert_eq.

(** Reading [options.k]: from the options object given, or from the [{}]
    that stands in for a falsy [options]. *)
Lemma read_option_given w w0 W ts options k :
  tracks w0 W ts -> heap w0 = heap w -> nullish options = false ->
  exists v, get options k W = (Normal v, W) /\ option_read w options k v.
Proof.
  intros T Hheap Hnn. eexists. split; [by apply get_not_nullish |].
  by eapply option_read_tracked.
Qed.

Lemma read_option_default w w0 W ts options o k :
  tracks w0 W ts -> ts !! 1%nat = Some (o, CObj None ∅) -> truthy options = false ->
  exists v, get (VRef o) k W = (Normal v, W) /\ option_read w options k v.
Proof.
  intros T Hi Hf. exists VUndefined. split; [| by apply option_read_falsy].
  eapply tracks_get_absent; [exact T | exact Hi | apply lookup_empty].
Qed.

Ltac step_read_option w options v Hv :=
  rewrite ?bind_bind;
  let Hrun := fresh "Hrun" in
  lazymatch goal with
  | T : tracks ?w0 ?W ?ts, Hnn : nullish options = false
    |- context [bind (get options ?k) _ ?W] =>
      destruct (read_option_given w w0 W ts options k T eq_refl Hnn) as (v & Hrun & Hv);
      rewrite (bind_Normal _ _ _ _ _ Hrun); clear Hrun
  | T : tracks ?w0 ?W ?ts, Hf : truthy options = false
    |- context [bind (get (VRef ?l) ?k) _ ?W] =>
      destruct (read_option_default w w0 W ts options l k T eq_refl Hf) as (v & Hrun & Hv);
      rewrite (bind_Normal _ _ _ _ _ Hrun); clear Hrun
  end.

Lemma tracks_method_value w0 W ts this ps name m :
  tracks w0 W ts ->
  ts !! 0%nat = Some (this, CObj None ps) ->
  ps !! name = None ->
  method_value this name m W = (Normal (VFun m), W).
Proof.
  intros T Hi Hk. unfold method_value, gets, method_of.
  by rewrite (find_chain_no_proto _ _ _ _ _ (tracks_cells _ _ _ T _ _ _ Hi)), Hk.
Qed.

Ltac step_ret :=
  rewrite ?bind_bind;
  lazymatch goal with
  | |- context [bind (ret ?x) _ ?W] =>
      rewrite (bind_Normal _ _ _ _ _ (eq_refl : ret x W = (Normal x, W)))
  end.

Ltac tracked_cell :=
  lazymatch goal with
  | T : tracks _ _ _ |- _ =>
      first [ exact (tracks_cells _ _ _ T 0%nat _ _ eq_refl)
            | exact (tracks_cells _ _ _ T 1%nat _ _ eq_refl)
            | exact (tracks_cells _ _ _ T 2%nat _ _ eq_refl)
            | exact (tracks_cells _ _ _ T 3%nat _ _ eq_refl)
            | exact (tracks_cells _ _ _ T 4%nat _ _ eq_refl)
            | exact (tracks_cells _ _ _ T 5%nat _ _ eq_refl)
            | exact (tracks_cells _ _ _ T 6%nat _ _ eq_refl) ]
  end.

Ltac tracked_new :=
  lazymatch goal with
  | T : tracks _ _ _ |- _ =>
      first [ exact (tracks_new _ _ _ T 0%nat _ _ eq_refl)
            | exact (tracks_new _ _ _ T 1%nat _ _ eq_refl)
            | exact (tracks_new _ _ _ T 2%nat _ _ eq_refl)
            | exact (tracks_new _ _ _ T 3%nat _ _ eq_refl)
            | exact (tracks_new _ _ _ T 4%nat _ _ eq_refl)
            | exact (tracks_new _ _ _ T 5%nat _ _ eq_refl)
            | exact (tracks_new _ _ _ T 6%nat _ _ eq_refl) ]
  end.

Section Construction.

Variable env : Imports.

(** The constructor returns an application as described by [built], unless
    [asyncLocalStorage] is asked for on a Node without it, when the
    assertion fails. *)
Lemma new_Application_cells (options : value) (w : World) (mc mr ms : loc) :
  context_module env = VRef mc ->
  request_module env = VRef mr ->
  response_module env = VRef ms ->
  (exists this w',
     new_Application env options w = (Normal this, w')
     /\ built env mc mr ms w options this w')
  \/ (has_AsyncLocalStorage env = false
      /\ exists e w', new_Application env options w = (Throw e, w')).
Proof.
  intros Hmc Hmr Hms.
  unfold new_Application, constructor. rewrite Hmc, Hmr, Hms.
  pose proof (tracks_init w) as T.
  step_alloc_cell (CObj None ∅) this.
  mstep (Emitter_init_eq this _).
  lazymatch goal with
  | T : tracks _ ?W _ |- _ =>
      rewrite (tracks_listeners _ _ _ T);
      apply (tracks_with_listeners _ _ _ (<[this := ∅]> (listeners w))) in T
  end.
  destruct (truthy options) eqn:Hopt;
    [pose proof (truthy_not_nullish _ Hopt) as Hnn; step_ret | step_new_object o].
  all: step_read_option w options vproxy Hproxy; step_set.
  all: step_read_option w options vsub Hsub; step_set.
  all: step_read_option w options vhdr Hhdr; step_set.
  all: step_read_option w options vmax Hmax; step_set.
  all: step_read_option w options venv Henv; step_set.
  all: step_read_option w options vcompose Hcompose; step_set.
  all: step_read_option w options vkeys Hkeys.
  all: destruct (truthy vkeys) eqn:Htk; [step_set | step_ret].
  all: step_alloc_cell (CArray []) arr; step_set.
  all: step_create mc c; step_set.
  all: step_create mr rq; step_set.
  all: step_create ms rs; step_set.
  all: destruct (has_inspect_custom env);
     [ lazymatch goal with
       | T : tracks ?w0 ?W ?ts |- _ =>
           rewrite ?bind_bind;
           erewrite (bind_Normal _ _ _ _ _
                       (tracks_method_value w0 W ts this _ "inspect" FnInspect T eq_refl
                          ltac:(absent_key)))
       end; step_set
     | step_ret ].
  all: step_read_option w options vals Hvals.
  all: destruct (truthy vals);
      [ destruct (has_AsyncLocalStorage env);
        [ step_alloc_cell (CStorage VUndefined) st; step_set
        | step_alloc_any failure;
          right; split; [reflexivity |]; eexists _, _; reflexivity ]
      | step_ret ].
  all: left; eexists this, _; split; [reflexivity |].
  all: eexists _, vproxy, vsub, vhdr, vmax, venv, vcompose, vkeys, arr, c, rq, rs.
  all: split; [tracked_new |].
  all: split; [tracked_cell |].
  all: split; [intros l x Hl; eapply tracks_lookup_old; [eassumption | exact Hl] |].
  all: split; [lazymatch goal with T : tracks _ _ _ |- _ =>
                exact (tracks_listeners _ _ _ T) end |].
  all: split; [lazymatch goal with T : tracks _ _ _ |- _ =>
                exact (tracks_log _ _ _ T) end |].
  all: do 7 (split; [assumption |]).
  all: do 6 (split; [present_key |]).
  all: rewrite Htk; split; [first [present_key | absent_key] |].
  all: split; [absent_key |].
  all: split; [present_key |].
  all: split; [tracked_cell |].
  all: split; [tracked_new |].
  all: split; [present_key |].
  all: split; [tracked_cell |].
  all: split; [present_key |].
  all: split; [tracked_cell |].
  all: split; [present_key | tracked_cell].
Qed.

End Construction.

Section ConstructorProperties.

Variable env : Imports.

(** C10. In the constructor a falsy option is replaced by its default:
    [subdomainOffset] by 2, [proxyIpHeader] by ["X-Forwarded-For"], [env]
    by [NODE_ENV] or ["development"], and likewise [proxy], [maxIpsCount]
    and [compose], while falsy [keys] are not stored; whatever the
    options, the [subdomainOffset] of the new application is not 0. The
    constructor does return an application wherever [AsyncLocalStorage]
    exists. *)
Theorem constructor_defaults (options : value) (w : World) (mc mr ms : loc) :
  context_module env = VRef mc ->
  request_module env = VRef mr ->
  response_module env = VRef ms ->
  (has_AsyncLocalStorage env = true ->
   exists this w', new_Application env options w = (Normal this, w'))
  /\ forall this w',
       new_Application env options w = (Normal this, w') ->
       exists ps,
         heap w' !! this = Some (CObj None ps)
         /\ (exists v, ps !! "subdomainOffset" = Some v /\ v <> VNum 0)
         /\ forall o p ops,
              options = VRef o ->
              heap w !! o = Some (CObj p ops) ->
              (forall v, ops !! "subdomainOffset" = Some v -> truthy v = false ->
                         ps !! "subdomainOffset" = Some (VNum 2))
              /\ (forall v, ops !! "proxyIpHeader" = Some v -> truthy v = false ->
                            ps !! "proxyIpHeader" = Some (VStr "X-Forwarded-For"))
              /\ (forall v, ops !! "env" = Some v -> truthy v = false ->
                            ps !! "env"
                            = Some (js_or (NODE_ENV env) (VStr "development")))
              /\ (forall v, ops !! "proxy" = Some v -> truthy v = false ->
                            ps !! "proxy" = Some (VBool false))
              /\ (forall v, ops !! "maxIpsCount" = Some v -> truthy v = false ->
                            ps !! "maxIpsCount" = Some (VNum 0))
              /\ (forall v, ops !! "compose" = Some v -> truthy v = false ->
                            ps !! "compose" = Some (VFun FnKoaCompose))
              /\ (forall v, ops !! "keys" = Some v -> truthy v = false ->
                            ps !! "keys" = None).
Proof.
  intros Hmc Hmr Hms.
  destruct (new_Application_cells env options w mc mr ms Hmc Hmr Hms)
    as [(this0 & w0 & Hrun & Hbuilt) | (Hals & e & w0 & Hrun)].
  2: { split; [intros Hyes; congruence | intros this w' Hrun'; congruence]. }
  split; [eauto |].
  intros this w' Hrun'. rewrite Hrun in Hrun'. injection Hrun' as <- <-.
  destruct Hbuilt
    as (ps & vproxy & vsub & vhdr & vmax & venv & vcompose & vkeys
        & arr & c & rq & rs & _ & Hthis & _ & _ & _
        & Rproxy & Rsub & Rhdr & Rmax & Renv & Rcompose & Rkeys
        & Pproxy & Psub & Phdr & Pmax & Penv & Pcompose & Pkeys & _).
  exists ps. split; [exact Hthis |].
  split; [eauto using js_or_not_zero |].
  intros o p ops -> Ho.
  repeat split; intros v Hv Hfalsy.
  - rewrite Psub. f_equal. apply js_or_truthy.
    by rewrite (proj1 Rsub o p ops v eq_refl Ho Hv).
  - rewrite Phdr. f_equal. apply js_or_truthy.
    by rewrite (proj1 Rhdr o p ops v eq_refl Ho Hv).
  - rewrite Penv. f_equal. f_equal. apply js_or_truthy.
    by rewrite (proj1 Renv o p ops v eq_refl Ho Hv).
  - rewrite Pproxy. f_equal. apply js_or_truthy.
    by rewrite (proj1 Rproxy o p ops v eq_refl Ho Hv).
  - rewrite Pmax. f_equal. apply js_or_truthy.
    by rewrite (proj1 Rmax o p ops v eq_refl Ho Hv).
  - rewrite Pcompose. f_equal. apply js_or_truthy.
    by rewrite (proj1 Rcompose o p ops v eq_refl Ho Hv).
  - rewrite Pkeys. by rewrite (proj1 Rkeys o p ops v eq_refl Ho Hv), Hfalsy.
Qed.

End ConstructorProperties.

(** ** The JSON snapshot *)

Lemma only_reduce_run (this j : loc) (ps : gmap string value) (w : World) keys :
  heap w !! this = Some (CObj None ps) ->
  j <> this ->
  forall acc,
    only_reduce (VRef this) keys (VRef j)
      (with_heap (<[j := CObj None acc]> (heap w)) w)
    = (Normal tt,
       with_heap (<[j := CObj None (fold_left (only_pick ps) keys acc)]> (heap w)) w).
Proof.
  intros Hthis Hne. induction keys as [| k keys IH]; intros acc; [reflexivity |].
  cbn [only_reduce fold_left].
  mstep (get_ref this k _).
  rewrite (cell_get_no_proto _ this ps).
  2: { cbn [with_heap heap]. by rewrite lookup_insert_ne. }
  unfold only_pick at 2.
  destruct (nullish (default VUndefined (ps !! k))).
  - step_ret. apply IH.
  - mstep (set_obj_again j None acc k _ (heap w) w). apply IH.
Qed.

Lemma pick_skip (ps acc : gmap string value) (keys : list string) (a k : string) v :
  (k = a -> forall v', ps !! k = Some v' -> nullish v' = false -> False) ->
  (k ∈ keys /\ ps !! k = Some v /\ nullish v = false
   \/ ~ (k ∈ keys /\ exists v', ps !! k = Some v' /\ nullish v' = false)
      /\ acc !! k = Some v)
  <-> ((k = a \/ k ∈ keys) /\ ps !! k = Some v /\ nullish v = false
       \/ ~ ((k = a \/ k ∈ keys) /\ exists v', ps !! k = Some v' /\ nullish v' = false)
          /\ acc !! k = Some v).
Proof.
  intros Hnot. split.
  - intros [(Hin & Hk & Hn) | (Hno & Hacc)]; [left; tauto |].
    right. split; [| done]. intros ([Heq | Hin] & v' & Hk & Hn); [by eapply Hnot |].
    apply Hno. eauto.
  - intros [([Heq | Hin] & Hk & Hn) | (Hno & Hacc)]; [by edestruct Hnot | left; tauto |].
    right. split; [| done]. intros (Hin & Hx). apply Hno. eauto.
Qed.

Lemma fold_pick_lookup (ps : gmap string value) keys :
  forall acc k v,
    fold_left (only_pick ps) keys acc !! k = Some v
    <-> (k ∈ keys /\ ps !! k = Some v /\ nullish v = false)
        \/ (~ (k ∈ keys /\ exists v', ps !! k = Some v' /\ nullish v' = false)
            /\ acc !! k = Some v).
Proof.
  induction keys as [| a keys IH]; intros acc k v; cbn [fold_left].
  - rewrite elem_of_nil. split; [| tauto]. intros H. right. tauto.
  - rewrite IH, elem_of_cons. unfold only_pick.
    destruct (ps !! a) as [va |] eqn:Ha; unfold default; cbn [from_option id];
      [destruct (nullish va) eqn:Hva |]; cbn [nullish].
    + apply pick_skip. intros -> v' Hv' Hn. congruence.
    + destruct (decide (k = a)) as [Heq | Hne].
      * subst k. rewrite lookup_insert_eq. split.
        -- intros [(Hin & Hk & Hn) | (Hno & Hacc)]; [left; tauto |].
           injection Hacc as <-. left. tauto.
        -- intros [(_ & Hk & Hn) | (Hno & _)].
           ++ destruct (decide (a ∈ keys)) as [Hin | Hout]; [left; tauto |].
              right. split; [tauto | congruence].
           ++ exfalso. apply Hno. eauto.
      * rewrite lookup_insert_ne by done. apply pick_skip. intros Heq. done.
    + apply pick_skip. intros -> v' Hv' Hn. congruence.
Qed.

Lemma fold_pick_snapshot (ps : gmap string value) keys :
  fold_left (only_pick ps) keys ∅ = snapshot keys ps.
Proof.
  apply map_eq. intros k. apply option_eq. intros v.
  rewrite fold_pick_lookup. unfold snapshot.
  rewrite map_lookup_filter_Some. cbn. rewrite lookup_empty.
  split; [intros [H | [_ H]]; [tauto | done] | intros (Hk & Hin & Hn); left; tauto].
Qed.

Lemma toJSON_run (this : loc) (ps : gmap string value) (w : World) :
  heap w !! this = Some (CObj None ps) ->
  toJSON this w
  = (Normal (VRef (fresh (dom (heap w)))),
     with_heap
       (<[fresh (dom (heap w)) :=
            CObj None (snapshot ["subdomainOffset"; "proxy"; "env"] ps)]> (heap w)) w).
Proof.
  intros Hthis.
  assert (Hfresh : heap w !! fresh (dom (heap w)) = None)
    by apply not_elem_of_dom, is_fresh.
  assert (Hne : fresh (dom (heap w)) <> this) by (intros Heq; congruence).
  unfold toJSON, only. cbn [truthy]. step_ret.
  mstep (new_object_eq w).
  mstep (only_reduce_run this _ ps w _ Hthis Hne ∅).
  by rewrite fold_pick_snapshot.
Qed.

Lemma snapshot_lookup keys (ps : gmap string value) k v :
  snapshot keys ps !! k = Some v
  <-> k ∈ keys /\ ps !! k = Some v /\ nullish v = false.
Proof. unfold snapshot. rewrite map_lookup_filter_Some. cbn. tauto. Qed.

Lemma snapshot_dom_settings (ps : gmap string value) :
  (forall k, k ∈ ["subdomainOffset"; "proxy"; "env"] ->
             exists v, ps !! k = Some v /\ nullish v = false) ->
  dom (snapshot ["subdomainOffset"; "proxy"; "env"] ps)
  = {["subdomainOffset"; "proxy"; "env"]}.
Proof.
  intros Hall. apply set_eq. intros k.
  rewrite elem_of_dom. unfold is_Some.
  setoid_rewrite snapshot_lookup.
  split.
  - intros (v & Hin & _).
    rewrite !elem_of_cons, elem_of_nil in Hin.
    rewrite !elem_of_union, !elem_of_singleton. tauto.
  - intros Hin. rewrite !elem_of_union, !elem_of_singleton in Hin.
    assert (Hk : k ∈ ["subdomainOffset"; "proxy"; "env"])
      by (rewrite !elem_of_cons; tauto).
    destruct (Hall k Hk) as (v & Hv & Hn). eauto.
Qed.

(** C8, as amended. The object returned by [toJSON], and by [inspect], is a
    new object holding, of [subdomainOffset], [proxy] and [env], the fields
    whose current value is neither [null] nor [undefined], with that value,
    and nothing else; when none of the three is [null] or [undefined] it
    has exactly these three fields. *)
Theorem toJSON_snapshot (this : loc) (ps : gmap string value) (w : World) :
  heap w !! this = Some (CObj None ps) ->
  exists j w',
    toJSON this w = (Normal (VRef j), w')
    /\ inspect this w = toJSON this w
    /\ heap w !! j = None
    /\ heap w' !! j = Some (CObj None (snapshot ["subdomainOffset"; "proxy"; "env"] ps))
    /\ (forall l, l <> j -> heap w' !! l = heap w !! l)
    /\ (forall k v,
          snapshot ["subdomainOffset"; "proxy"; "env"] ps !! k = Some v
          <-> k ∈ ["subdomainOffset"; "proxy"; "env"]
              /\ ps !! k = Some v /\ nullish v = false)
    /\ ((forall k, k ∈ ["subdomainOffset"; "proxy"; "env"] ->
                   exists v, ps !! k = Some v /\ nullish v = false) ->
        dom (snapshot ["subdomainOffset"; "proxy"; "env"] ps)
        = {["subdomainOffset"; "proxy"; "env"]}).
Proof.
  intros Hthis. eexists _, _.
  split; [by apply toJSON_run |].
  split; [reflexivity |].
  split; [apply not_elem_of_dom, is_fresh |].
  cbn [with_heap heap].
  split; [apply lookup_insert_eq |].
  split; [intros l Hl; by rewrite lookup_insert_ne |].
  split; [apply snapshot_lookup | apply snapshot_dom_settings].
Qed.

(** An application as the constructor leaves it shows all three fields. *)
Lemma toJSON_after_constructor (env : Imports) (options : value) (w : World)
    (mc mr ms this : loc) (w1 : World) :
  built env mc mr ms w options this w1 ->
  exists j w2 props,
    toJSON this w1 = (Normal (VRef j), w2)
    /\ heap w2 !! j = Some (CObj None props)
    /\ dom props = {["subdomainOffset"; "proxy"; "env"]}.
Proof.
  intros (ps & vproxy & vsub & vhdr & vmax & venv & vcompose & vkeys
          & arr & c & rq & rs & _ & Hthis & _ & _ & _
          & _ & _ & _ & _ & _ & _ & _
          & Pproxy & Psub & _ & _ & Penv & _).
  eexists _, _, _.
  split; [by apply toJSON_run |].
  cbn [with_heap heap].
  split; [apply lookup_insert_eq |].
  apply snapshot_dom_settings. intros k Hk.
  rewrite !elem_of_cons, elem_of_nil in Hk.
  destruct Hk as [-> | [-> | [-> | []]]]; eexists; (split; [eassumption |]);
    by apply js_or_not_nullish.
Qed.


(** ** More of the response serializer *)

Lemma lookup_chain_insert_CRes (h : gmap loc cell) r rr' k fuel :
  (exists rr, h !! r = Some (CRes rr)) ->
  forall l, lookup_chain fuel (<[r := CRes rr']> h) l k = lookup_chain fuel h l k.
Proof.
  intros [rr Hr]. induction fuel as [| fuel IH]; intros l; cbn [lookup_chain].
  - destruct (decide (l = r)) as [-> | Hne].
    + by rewrite lookup_insert_eq, Hr.
    + by rewrite lookup_insert_ne.
  - destruct (decide (l = r)) as [-> | Hne].
    + by rewrite lookup_insert_eq, Hr.
    + rewrite lookup_insert_ne by done.
      destruct (h !! l) as [[p ps | | | | | | |] |]; try done.
      destruct (ps !! k); [done |]. destruct p; [apply IH | done].
Qed.

(** The headers and the status of an outgoing message are not properties
    of any other object. *)
Lemma cell_get_insert_CRes (h : gmap loc cell) r rr rr' l k :
  h !! r = Some (CRes rr) -> l <> r ->
  cell_get (<[r := CRes rr']> h) l k = cell_get h l k.
Proof.
  intros Hr Hne. unfold cell_get. rewrite lookup_insert_ne by done.
  destruct (h !! l) as [[p ps | | | | | | |] |]; try done.
  rewrite lookup_chain_insert_CRes by eauto.
  f_equal. apply map_size_insert_Some. by rewrite Hr.
Qed.

Lemma cell_get_res_ne (h : gmap loc cell) l r rr :
  h !! r = Some (CRes rr) -> cell_get h l "res" = VRef r -> l <> r.
Proof. intros Hr Hl ->. unfold cell_get in Hl. rewrite Hr in Hl. discriminate. Qed.

Lemma get_headersSent r rr w :
  heap w !! r = Some (CRes rr) ->
  get (VRef r) "headersSent" w = (Normal (VBool (headersSent rr)), w).
Proof. intros Hr. rewrite get_ref. unfold cell_get. by rewrite Hr. Qed.

Lemma response_headers_wrapped rs r rr w :
  cell_get (heap w) rs "res" = VRef r ->
  heap w !! r = Some (CRes rr) ->
  response_headers (VRef rs) w = (Normal (r, rr), w).
Proof.
  intros Hrs Hr. unfold response_headers.
  mstep (get_ref rs "res" w). rewrite Hrs.
  mstep (cell_of_ref r w). by rewrite Hr.
Qed.

Lemma response_has_wrapped rs r rr field w :
  cell_get (heap w) rs "res" = VRef r ->
  heap w !! r = Some (CRes rr) ->
  response_has (VRef rs) field w
  = (Normal (bool_decide (is_Some (headers rr !! toLowerCase field))), w).
Proof.
  intros Hrs Hr. unfold response_has.
  by mstep (response_headers_wrapped rs r rr w Hrs Hr).
Qed.

Lemma response_remove_wrapped rs r rr field w :
  cell_get (heap w) rs "res" = VRef r ->
  heap w !! r = Some (CRes rr) ->
  response_remove (VRef rs) field w
  = (Normal tt,
     with_heap (<[r := CRes {| statusCode := statusCode rr;
                               headersSent := headersSent rr;
                               headers := delete (toLowerCase field) (headers rr) |}]>
                  (heap w)) w).
Proof.
  intros Hrs Hr. unfold response_remove.
  by mstep (response_headers_wrapped rs r rr w Hrs Hr).
Qed.

(** The steps of [respond] up to the test of the method. *)
Ltac enter_respond Hs :=
  let Hbypass := fresh "Hbypass" in
  let Hwritable := fresh "Hwritable" in
  let Hres := fresh "Hres" in
  let Hr := fresh "Hr" in
  let Hempty := fresh "Hempty" in
  pose proof Hs as (Hbypass & Hwritable & Hres & Hr & Hempty);
  unfold respond;
  mstep (get_ref _ "respond" _); rewrite Hbypass;
  mstep (get_ref _ "writable" _); rewrite Hwritable; cbn [negb];
  mstep (get_ref _ "res" _); rewrite Hres;
  mstep (get_ref _ "body" _);
  mstep (get_ref _ "status" _); rewrite Hempty;
  mstep (get_ref _ "method" _).

Section RespondBranches.

Variable host : Host.
Variable env : Imports.



(** X3. On a context that [respond] serves (response handling not
    bypassed, context writable, status not body-less) and for a method
    other than HEAD, a string or a [Buffer] is written as it is: the
    response is ended with the body itself and nothing of the context or
    of the outgoing message is changed, whether or not the headers are
    sent. *)
Theorem respond_raw_body (w : World) (c r : loc) (rr : ServerResponse) :
  serving env w c r rr ->
  strict_eq (cell_get (heap w) c "method") (VStr "HEAD") = false ->
  raw_body (heap w) (cell_get (heap w) c "body") = true ->
  respond host env (VRef c) w
  = (Normal tt, emit_event (EvEnd r (Some (cell_get (heap w) c "body"))) w).
Proof.
  intros Hs Hmethod Hraw.
  enter_respond Hs. rewrite Hmethod.
  destruct (cell_get (heap w) c "body") as [| | | | | | s | | b] eqn:Hbody;
    try discriminate; cbn [nullish raw_body] in *.
  - mstep (eq_refl : cell_of (VStr s) w = (Normal None, w)).
    by apply res_end_Res with (r := rr).
  - mstep (cell_of_ref b w).
    destruct (heap w !! b) as [[| | | bytes | | | |] |]; try discriminate.
    by apply res_end_Res with (r := rr).
Qed.

(** X4. On a context that [respond] serves (response handling not
    bypassed, context writable, status not body-less) and for a method
    other than HEAD, a stream is piped into the outgoing message:
    [respond] does not end the response itself and changes nothing else. *)
Theorem respond_stream (w : World) (c r s : loc) (rr : ServerResponse) :
  serving env w c r rr ->
  strict_eq (cell_get (heap w) c "method") (VStr "HEAD") = false ->
  cell_get (heap w) c "body" = VRef s ->
  heap w !! s = Some CStream ->
  respond host env (VRef c) w = (Normal tt, emit_event (EvPipe s (VRef r)) w).
Proof.
  intros Hs Hmethod Hbody Hstream.
  enter_respond Hs. rewrite Hmethod, Hbody. cbn [nullish].
  mstep (cell_of_ref s w). by rewrite Hstream.
Qed.

Lemma respond_json_enter (w : World) (c r : loc) (rr : ServerResponse) :
  serving env w c r rr ->
  strict_eq (cell_get (heap w) c "method") (VStr "HEAD") = false ->
  json_body (heap w) (cell_get (heap w) c "body") = true ->
  respond host env (VRef c) w
  = (do body <- JSON_stringify host (cell_get (heap w) c "body");
     do headersSent <- get (VRef r) "headersSent";
     do_ (if negb (truthy headersSent)
          then do n <- Buffer_byteLength body; set (VRef c) "length" (VNum n)
          else ret tt);
     res_end (VRef r) (Some body)) w.
Proof.
  intros Hs Hmethod Hjson.
  enter_respond Hs. rewrite Hmethod.
  destruct (cell_get (heap w) c "body") as [| | | | | | s | | b] eqn:Hbody;
    try discriminate; cbn [nullish json_body] in *;
    try (lazymatch goal with
         | |- context [bind (cell_of ?v) _ ?W] =>
             mstep (eq_refl : cell_of v W = (Normal None, W))
         end; reflexivity).
  mstep (cell_of_ref b w).
  by destruct (heap w !! b) as [[| | | bytes | | | |] |].
Qed.


End RespondBranches.

(** ** What [respond] hands to the transport *)

Lemma inert_ret {A} (a : A) : inert (ret a).
Proof. intros w r w' [= <- <-]. done. Qed.

Lemma inert_gets {A} (f : World -> A) : inert (gets f).
Proof. intros w r w' [= <- <-]. done. Qed.

Lemma inert_bind {A B} (c : M A) (k : A -> M B) :
  inert c -> (forall a, inert (k a)) -> inert (bind c k).
Proof.
  intros Hc Hk w r w' H.
  apply bind_inv in H as [(a & w1 & H1 & H2) | (e & H1 & _)].
  - apply Hk in H2 as [-> ->]. by apply Hc in H1.
  - by apply Hc in H1.
Qed.

Lemma inert_throw_TypeError {A} message : inert (@throw_TypeError A message).
Proof. intros w r w'. rewrite throw_TypeError_eq. intros [= <- <-]. done. Qed.

Lemma inert_get o k : inert (get o k).
Proof.
  unfold get. destruct (nullish o); [apply inert_throw_TypeError | apply inert_gets].
Qed.

Lemma inert_cell_of v : inert (cell_of v).
Proof. destruct v; first [apply inert_ret | apply inert_gets]. Qed.

Lemma inert_set o k v : inert (set o k v).
Proof.
  destruct o; cbn [set];
    first [apply inert_throw_TypeError | apply inert_ret | idtac].
  intros w r w' H.
  destruct (heap w !! l) as [[| | | | | | | rr] |]; try (injection H as <- <-; done).
  destruct v; try (injection H as <- <-; done).
  destruct (String.eqb k "statusCode"); injection H as <- <-; done.
Qed.

Lemma inert_Buffer_byteLength v : inert (Buffer_byteLength v).
Proof.
  unfold Buffer_byteLength. apply inert_bind; [apply inert_cell_of |].
  intros c. destruct v, c as [[| | | | | | |] |];
    first [apply inert_ret | apply inert_throw_TypeError].
Qed.

Lemma inert_response_headers response : inert (response_headers response).
Proof.
  unfold response_headers. apply inert_bind; [apply inert_get |]. intros res.
  apply inert_bind; [apply inert_cell_of |]. intros c.
  destruct res, c as [[| | | | | | |] |];
    first [apply inert_ret | apply inert_throw_TypeError].
Qed.

Lemma inert_response_has response field : inert (response_has response field).
Proof.
  unfold response_has. apply inert_bind; [apply inert_response_headers |].
  intros lr. apply inert_ret.
Qed.

Lemma inert_response_remove response field : inert (response_remove response field).
Proof.
  unfold response_remove. apply inert_bind; [apply inert_response_headers |].
  intros [l r] w x w' [= <- <-]. done.
Qed.

Lemma inert_httpVersionMajor_ge req n : inert (httpVersionMajor_ge req n).
Proof.
  unfold httpVersionMajor_ge. apply inert_bind; [apply inert_get |].
  intros v. apply inert_ret.
Qed.

Lemma sends_last_bind {A} (c : M A) (k : A -> M unit) :
  inert c -> (forall a, sends_last (k a)) -> sends_last (bind c k).
Proof.
  intros Hc Hk w r w' H.
  apply bind_inv in H as [(a & w1 & H1 & H2) | (e & H1 & ->)].
  - apply Hc in H1 as [<- <-]. by apply Hk in H2.
  - apply Hc in H1 as [-> ->]. done.
Qed.

Lemma sends_last_res_end res chunk : sends_last (res_end res chunk).
Proof.
  intros w r w' H. unfold res_end in H.
  apply bind_inv in H as [(c & w1 & H1 & H2) | (e & H1 & ->)].
  - pose proof (inert_cell_of res _ _ _ H1) as [<- <-].
    destruct res, c as [[| | | | | | |] |];
      try (rewrite throw_TypeError_eq in H2; injection H2 as <- <-; done).
    injection H2 as <- <-. split; [done |].
    eexists. split; cycle 1; reflexivity.
  - pose proof (inert_cell_of res _ _ _ H1) as [-> ->]. done.
Qed.

Lemma sends_last_stream_pipe body res : sends_last (stream_pipe body res).
Proof.
  intros w r w' [= <- <-]. split; [done |].
  eexists. split; cycle 1; reflexivity.
Qed.

Ltac inert_tac :=
  repeat first
    [ apply inert_ret
    | apply inert_get
    | apply inert_set
    | apply inert_cell_of
    | apply inert_Buffer_byteLength
    | apply inert_response_has
    | apply inert_response_remove
    | apply inert_httpVersionMajor_ge
    | apply inert_throw_TypeError
    | match goal with
      | H : forall v, inert (JSON_stringify _ v) |- _ => apply H
      end
    | apply inert_bind; [| intros ?]
    | match goal with
      | |- inert (if ?b then _ else _) => destruct b
      end ].

Ltac sends_tac :=
  repeat first
    [ apply sends_last_res_end
    | apply sends_last_stream_pipe
    | apply sends_last_bind; [solve [inert_tac] | intros ?]
    | match goal with
      | |- sends_last (if ?b then _ else _) => destruct b
      | |- sends_last (match ?x with _ => _ end) => destruct x
      end ].

Section RespondEffects.

Variable host : Host.
Variable env : Imports.

Hypothesis stringify_inert : forall v, inert (JSON_stringify host v).


End RespondEffects.

(** ** More of the request handler *)

Lemma with_heap_id w : with_heap (heap w) w = w.
Proof. by destruct w. Qed.

Section HandlerProperties.

Variable host : Host.
Variable env : Imports.

Lemma handleRequest_prelude this c r rr fn w :
  cell_get (heap w) c "res" = VRef r ->
  heap w !! r = Some (CRes rr) ->
  handleRequest host env this (VRef c) fn w
  = bind (invoke_async host fn [VRef c]) (after_pipeline host env (VRef c))
      (before_pipeline c r rr w).
Proof.
  intros Hres Hr. unfold handleRequest.
  mstep (get_ref c "res" w). rewrite Hres.
  assert (Hset : set (VRef r) "statusCode" (VNum 404) w
                 = (Normal tt, with_heap (<[r := CRes (not_found rr)]> (heap w)) w)).
  { unfold set. rewrite Hr. reflexivity. }
  mstep Hset.
  unfold onFinished at 1, modify at 1. unfold bind at 1.
  reflexivity.
Qed.

Lemma callback_after_compose this g fn w w1 :
  cell_get (heap w) this "compose" = VFun g ->
  call host g (VRef this) [cell_get (heap w) this "middleware"] w = (Normal fn, w1) ->
  callback host env this w
  = bind (if (length (listeners_of w1 this "error") =? 0)%nat
          then on this "error" (method_of (heap w1) this "onerror" FnOnerror)
          else ret tt)
      (fun _ => ret (handle host env this fn)) w1.
Proof.
  intros Hc Hk. unfold callback.
  mstep (get_ref this "compose" w). rewrite Hc.
  mstep (get_ref this "middleware" w). cbn [invoke].
  mstep Hk.
  mstep (eq_refl : listenerCount this "error" w1 = (Normal _, w1)).
  destruct (_ =? 0)%nat; [| reflexivity].
  unfold method_value.
  by mstep (eq_refl : gets (fun w => method_of (heap w) this "onerror" FnOnerror) w1
                      = (Normal _, w1)).
Qed.

Lemma on_function this name f w :
  is_function f = true ->
  on this name f w
  = (Normal tt,
     with_listeners
       (<[this := <[name := listeners_of w this name ++ [f]]>
                    (default ∅ (listeners w !! this))]> (listeners w)) w).
Proof. intros Hf. unfold on. by rewrite Hf. Qed.

Lemma listeners_of_registered this f w :
  listeners_of (with_error_listener this f w) this "error"
  = listeners_of w this "error" ++ [f].
Proof.
  unfold listeners_of at 1, with_error_listener. cbn [with_listeners listeners].
  rewrite lookup_insert_eq. cbn [default from_option id].
  by rewrite lookup_insert_eq.
Qed.

(** X7. Once the middleware is composed, [callback] registers
    [this.onerror] for ['error'] exactly when the application has no
    ['error'] listener at that moment: a listener that is already there is
    kept and none is added. When it registers, [this.onerror] must be a
    function: otherwise [callback] throws a [TypeError], registers nothing
    and returns no handler. After a registration the listeners of other
    emitters are as before, and a second [callback] registers nothing. *)
Theorem callback_error_listener (this : loc) (g : fn) (fn : value) (w w1 : World) :
  cell_get (heap w) this "compose" = VFun g ->
  call host g (VRef this) [cell_get (heap w) this "middleware"] w = (Normal fn, w1) ->
  let h := method_of (heap w1) this "onerror" FnOnerror in
  (listeners_of w1 this "error" <> [] ->
   callback host env this w = (Normal (handle host env this fn), w1))
  /\ (listeners_of w1 this "error" = [] ->
      is_function h = true ->
      let w2 := with_error_listener this h w1 in
      callback host env this w = (Normal (handle host env this fn), w2)
      /\ listeners_of w2 this "error" = [h]
      /\ (forall l, l <> this -> listeners w2 !! l = listeners w1 !! l)
      /\ forall g' fn' w3,
           cell_get (heap w2) this "compose" = VFun g' ->
           call host g' (VRef this) [cell_get (heap w2) this "middleware"] w2
           = (Normal fn', w3) ->
           listeners w3 = listeners w2 ->
           callback host env this w2 = (Normal (handle host env this fn'), w3))
  /\ (listeners_of w1 this "error" = [] ->
      is_function h = false ->
      exists l w',
        callback host env this w = (Throw (VRef l), w')
        /\ heap w1 !! l = None
        /\ heap w' !! l
           = Some (CError (type_error "The listener argument must be of type function"))
        /\ listeners w' = listeners w1
        /\ log w' = log w1).
Proof.
  intros Hcompose Hcall h.
  pose proof (callback_after_compose this g fn w w1 Hcompose Hcall) as Hrun.
  fold h in Hrun.
  split; [| split].
  - intros Hsome. rewrite Hrun.
    destruct (listeners_of w1 this "error") as [| x ls]; [done |]. reflexivity.
  - intros Hnone Hf w2. rewrite Hnone in Hrun. cbn [length Nat.eqb] in Hrun.
    assert (Hls2 : listeners_of w2 this "error" = [h]).
    { unfold w2. by rewrite listeners_of_registered, Hnone. }
    split.
    { rewrite Hrun. mstep (on_function this "error" h w1 Hf). reflexivity. }
    split; [exact Hls2 |].
    split.
    { intros l Hl. unfold w2, with_error_listener. cbn [with_listeners listeners].
      by rewrite lookup_insert_ne. }
    intros g' fn' w3 Hc' Hk' Hsame.
    rewrite (callback_after_compose this g' fn' w2 w3 Hc' Hk').
    unfold listeners_of in *. rewrite Hsame, Hls2. reflexivity.
  - intros Hnone Hf. rewrite Hnone in Hrun. cbn [length Nat.eqb] in Hrun.
    eexists _, _. split.
    + rewrite Hrun. unfold on. rewrite Hf. reflexivity.
    + cbn [with_heap heap listeners log].
      split; [apply not_elem_of_dom, is_fresh |].
      split; [apply lookup_insert_eq | done].
Qed.

(** X8. [callback] composes before it registers anything: when the
    [compose] of the application is not a function it throws a [TypeError],
    when the composition function throws it throws the same error, and in
    both cases no ['error'] listener has been registered and no handler is
    returned. *)
Theorem callback_compose_failure (this : loc) (w : World) :
  (is_function (cell_get (heap w) this "compose") = false ->
   exists l w',
     callback host env this w = (Throw (VRef l), w')
     /\ heap w !! l = None
     /\ heap w' !! l
        = Some (CError (type_error
             (js_String (cell_get (heap w) this "compose") +:+ " is not a function")))
     /\ listeners w' = listeners w /\ log w' = log w)
  /\ forall g e w1,
       cell_get (heap w) this "compose" = VFun g ->
       call host g (VRef this) [cell_get (heap w) this "middleware"] w = (Throw e, w1) ->
       callback host env this w = (Throw e, w1).
Proof.
  split.
  - intros Hnf. unfold callback.
    mstep (get_ref this "compose" w). mstep (get_ref this "middleware" w).
    exists (fresh (dom (heap w))),
      (with_heap
         (<[fresh (dom (heap w)) :=
              CError (type_error (js_String (cell_get (heap w) this "compose")
                                  +:+ " is not a function"))]> (heap w)) w).
    split.
    + destruct (cell_get (heap w) this "compose"); try discriminate; reflexivity.
    + cbn [with_heap heap listeners log].
      split; [apply not_elem_of_dom, is_fresh |].
      split; [apply lookup_insert_eq | done].
  - intros g e w1 Hc Hk. unfold callback.
    mstep (get_ref this "compose" w). rewrite Hc.
    mstep (get_ref this "middleware" w). cbn [invoke].
    unfold bind at 1. by rewrite Hk.
Qed.

(** X9. A pipeline that fails synchronously escapes [handleRequest]: when
    the pipeline is not a function a [TypeError] is thrown, and when the
    call of the pipeline itself throws, that error is thrown, without being
    passed to the [onerror] hook of the context. By then the status of the
    response is 404 and the finalization listener is registered. *)
Theorem handleRequest_sync_failure (this c r : loc) (rr : ServerResponse) (fn : value)
    (w : World) :
  cell_get (heap w) c "res" = VRef r ->
  heap w !! r = Some (CRes rr) ->
  let w1 := before_pipeline c r rr w in
  (is_function fn = false ->
   exists l w',
     handleRequest host env this (VRef c) fn w = (Throw (VRef l), w')
     /\ heap w !! l = None
     /\ heap w' !! l = Some (CError (type_error (js_String fn +:+ " is not a function")))
     /\ heap w' !! r = Some (CRes (not_found rr))
     /\ log w' = log w ++ [EvOnFinished (VRef r) (VRef c)])
  /\ forall f e w2,
       fn = VFun f ->
       call_async host f [VRef c] w1 = (Throw e, w2) ->
       handleRequest host env this (VRef c) fn w = (Throw e, w2).
Proof.
  intros Hres Hr w1. rewrite (handleRequest_prelude _ _ _ _ _ _ Hres Hr). fold w1.
  split.
  - intros Hnf.
    assert (Hfresh : heap w1 !! fresh (dom (heap w1)) = None)
      by apply not_elem_of_dom, is_fresh.
    assert (Hrw1 : heap w1 !! r = Some (CRes (not_found rr))).
    { unfold w1, before_pipeline. cbn [emit_event with_heap heap]. apply lookup_insert_eq. }
    exists (fresh (dom (heap w1))), (with_heap
      (<[fresh (dom (heap w1)) := CError (type_error (js_String fn +:+ " is not a function"))]>
         (heap w1)) w1).
    split; [destruct fn; try discriminate; reflexivity |].
    cbn [with_heap heap log].
    split.
    { destruct (heap w !! fresh (dom (heap w1))) eqn:Hold; [| done].
      exfalso. revert Hfresh. unfold w1, before_pipeline. cbn [emit_event with_heap heap].
      destruct (decide (fresh (dom (heap w1)) = r)) as [Heq | Hne].
      - unfold w1, before_pipeline in Heq. cbn [emit_event with_heap heap] in Heq.
        rewrite Heq. by rewrite lookup_insert_eq.
      - unfold w1, before_pipeline in Hne. cbn [emit_event with_heap heap] in Hne.
        rewrite lookup_insert_ne by done. unfold w1, before_pipeline in Hold.
        cbn [emit_event with_heap heap] in Hold. by rewrite Hold. }
    split; [apply lookup_insert_eq |].
    split; [| reflexivity].
    rewrite lookup_insert_ne; [done |]. intros Heq. rewrite Heq in Hfresh. congruence.
  - intros f e w2 -> Hk. cbn [invoke_async]. unfold bind. by rewrite Hk.
Qed.

(** X10. Without a context storage, the handler returned by [callback] gives
    every request a context that did not exist before, wired to the raw
    pair, and runs the pipeline on it once the status of the response is
    404; what happens when the pipeline settles is [after_pipeline]. *)
Theorem handle_fresh_context (this q r tc trq trs : loc) (pas : gmap string value)
    (rq : IncomingMessage) (rr : ServerResponse) (fn : value) (w : World) :
  heap w !! this = Some (CObj None pas) ->
  pas !! "context" = Some (VRef tc) ->
  pas !! "request" = Some (VRef trq) ->
  pas !! "response" = Some (VRef trs) ->
  truthy (default VUndefined (pas !! "ctxStorage")) = false ->
  heap w !! q = Some (CReq rq) ->
  heap w !! r = Some (CRes rr) ->
  exists c request response state w1,
    createContext this (VRef q) (VRef r) w = (Normal (VRef c), w1)
    /\ heap w !! c = None
    /\ wired w1 this (VRef q) (VRef r) c request response state (url rq)
    /\ heap (before_pipeline c r rr w1) !! r = Some (CRes (not_found rr))
    /\ handle host env this fn (VRef q) (VRef r) w
       = bind (invoke_async host fn [VRef c]) (after_pipeline host env (VRef c))
           (before_pipeline c r rr w1).
Proof.
  intros Hthis Hctx Hreq Hresp Hnone Hq Hr.
  destruct (createContext_cells this q tc trq trs None pas rq (VRef r) w
              Hthis Hctx Hreq Hresp Hq)
    as (c & request & response & state & w1 & Hrun & T).
  pose proof (tracks_cells _ _ _ T 0%nat _ _ eq_refl) as Hc.
  exists c, request, response, state, w1.
  split; [exact Hrun |].
  split; [exact (tracks_new _ _ _ T 0%nat _ _ eq_refl) |].
  split.
  { eapply wired_of_cells; [exact Hc | | |].
    - exact (tracks_cells _ _ _ T 1%nat _ _ eq_refl).
    - exact (tracks_cells _ _ _ T 2%nat _ _ eq_refl).
    - exact (tracks_cells _ _ _ T 3%nat _ _ eq_refl). }
  split.
  { unfold before_pipeline. cbn [emit_event with_heap heap]. apply lookup_insert_eq. }
  unfold handle. mstep Hrun.
  mstep (get_ref this "ctxStorage" w1).
  rewrite (cell_get_no_proto _ this pas) by (by eapply tracks_lookup_old).
  rewrite Hnone. cbn [negb].
  apply handleRequest_prelude.
  - eapply cell_get_own; [exact Hc |]. unfold context_props. present_key.
  - by eapply tracks_lookup_old.
Qed.

(** X11. With a context storage, the store is the new context while the
    request is handled, so [currentContext] is that context when the
    pipeline starts, and the store is put back when the handler is done. A
    synchronous failure inside rejects the promise instead of escaping. *)
Theorem handle_storage_scope (this q r tc trq trs st : loc) (pa : option loc)
    (pas : gmap string value) (rq : IncomingMessage) (rr : ServerResponse)
    (outer fn : value) (w : World) :
  heap w !! this = Some (CObj pa pas) ->
  pas !! "context" = Some (VRef tc) ->
  pas !! "request" = Some (VRef trq) ->
  pas !! "response" = Some (VRef trs) ->
  pas !! "ctxStorage" = Some (VRef st) ->
  heap w !! st = Some (CStorage outer) ->
  heap w !! q = Some (CReq rq) ->
  heap w !! r = Some (CRes rr) ->
  exists c w1,
    createContext this (VRef q) (VRef r) w = (Normal (VRef c), w1)
    /\ heap w !! c = None
    /\ let W1 := before_pipeline c r rr (with_store st (VRef c) w1) in
       currentContext this W1 = (Normal (VRef c), W1)
       /\ forall x w2,
            bind (invoke_async host fn [VRef c]) (after_pipeline host env (VRef c)) W1
            = (x, w2) ->
            handle host env this fn (VRef q) (VRef r) w
            = (Normal (async_outcome x), with_store st outer w2)
            /\ heap (with_store st outer w2) !! st = Some (CStorage outer).
Proof.
  intros Hthis Hctx Hreq Hresp Hst Hstore Hq Hr.
  destruct (createContext_cells this q tc trq trs pa pas rq (VRef r) w
              Hthis Hctx Hreq Hresp Hq)
    as (c & request & response & state & w1 & Hrun & T).
  pose proof (tracks_cells _ _ _ T 0%nat _ _ eq_refl) as Hc.
  pose proof (tracks_new _ _ _ T 0%nat _ _ eq_refl) as Hcnew.
  pose proof (tracks_lookup_old _ _ _ _ _ T Hthis) as Hthis1.
  pose proof (tracks_lookup_old _ _ _ _ _ T Hstore) as Hstore1.
  pose proof (tracks_lookup_old _ _ _ _ _ T Hr) as Hr1.
  assert (Hcst : c <> st) by congruence.
  assert (Hrst : r <> st) by congruence.
  assert (Hthisst : this <> st) by congruence.
  assert (Hthisr : this <> r) by congruence.
  exists c, w1. split; [exact Hrun |]. split; [exact Hcnew |].
  intros W1. split.
  - unfold currentContext.
    assert (Hget : get (VRef this) "ctxStorage" W1 = (Normal (VRef st), W1)).
    { eapply get_own; [| exact Hst].
      unfold W1, before_pipeline, with_store. cbn [emit_event with_heap heap].
      by rewrite !lookup_insert_ne. }
    mstep Hget. cbn [truthy]. unfold storage_getStore.
    mstep (cell_of_ref st W1).
    unfold W1, before_pipeline, with_store. cbn [emit_event with_heap heap].
    rewrite lookup_insert_ne by done. by rewrite lookup_insert_eq.
  - intros x w2 Hx. split; [| unfold with_store; cbn [with_heap heap]; apply lookup_insert_eq].
    unfold handle. mstep Hrun.
    mstep (get_own this pa pas "ctxStorage" (VRef st) w1 Hthis1 Hst). cbn [truthy negb].
    unfold storage_run. mstep (cell_of_ref st w1). rewrite Hstore1.
    mstep (eq_refl : storage_put st (VRef c) w1 = (Normal tt, with_store st (VRef c) w1)).
    assert (Hbody : attempt (handleRequest host env this (VRef c) fn)
                      (with_store st (VRef c) w1) = (Normal x, w2)).
    { unfold attempt.
      rewrite (handleRequest_prelude this c r rr).
      - fold W1. by rewrite Hx.
      - eapply cell_get_own.
        + unfold with_store. cbn [with_heap heap]. rewrite lookup_insert_ne by done.
          exact Hc.
        + unfold context_props. present_key.
      - unfold with_store. cbn [with_heap heap]. by rewrite lookup_insert_ne. }
    mstep Hbody.
    mstep (eq_refl : storage_put st outer w2 = (Normal tt, with_store st outer w2)).
    by destruct x.
Qed.

End HandlerProperties.

(** ** The storage middleware *)

(** X12. The middleware of [createAsyncCtxStorageMiddleware] runs the rest
    of the pipeline with the context as the store, so [currentContext] is
    that context when the rest starts, and puts the former store back; its
    promise settles as the rest does, a synchronous failure of the rest
    rejecting it. On an application without a context storage its promise
    is rejected with a [TypeError] and the rest of the pipeline is not
    run. *)
Theorem asyncCtxStorage_scope (this : loc) (ctx : value) (next : M settlement) (w : World) :
  createAsyncCtxStorageMiddleware this w = (Normal (asyncCtxStorage this), w)
  /\ (forall pa pas st outer,
        heap w !! this = Some (CObj pa pas) ->
        pas !! "ctxStorage" = Some (VRef st) ->
        heap w !! st = Some (CStorage outer) ->
        currentContext this (with_store st ctx w) = (Normal ctx, with_store st ctx w)
        /\ forall x w2,
             next (with_store st ctx w) = (x, w2) ->
             asyncCtxStorage this ctx next w
             = (Normal (async_outcome x), with_store st outer w2))
  /\ (nullish (cell_get (heap w) this "ctxStorage") = true ->
      exists l w',
        asyncCtxStorage this ctx next w = (Normal (Rejected (VRef l)), w')
        /\ heap w !! l = None
        /\ heap w' !! l
           = Some (CError (type_error
                ("Cannot read properties of "
                 +:+ js_String (cell_get (heap w) this "ctxStorage"))))
        /\ (forall l', l' <> l -> heap w' !! l' = heap w !! l')
        /\ listeners w' = listeners w /\ log w' = log w).
Proof.
  split; [reflexivity |]. split.
  - intros pa pas st outer Hthis Hst Hstore.
    assert (Hne : this <> st) by congruence.
    split.
    + unfold currentContext.
      assert (Hget : get (VRef this) "ctxStorage" (with_store st ctx w)
                     = (Normal (VRef st), with_store st ctx w)).
      { eapply get_own; [| exact Hst].
        unfold with_store. cbn [with_heap heap]. by rewrite lookup_insert_ne. }
      mstep Hget. cbn [truthy]. unfold storage_getStore.
      mstep (cell_of_ref st (with_store st ctx w)).
      unfold with_store. cbn [with_heap heap]. by rewrite lookup_insert_eq.
    + intros x w2 Hx. unfold asyncCtxStorage.
      assert (Hbody : attempt (do ctxStorage <- get (VRef this) "ctxStorage";
                               if nullish ctxStorage
                               then throw_TypeError ("Cannot read properties of "
                                                     +:+ js_String ctxStorage)
                               else storage_run ctxStorage ctx next) w
                      = (Normal (Normal (async_outcome x)), with_store st outer w2)).
      { unfold attempt.
        mstep (get_own this pa pas "ctxStorage" (VRef st) w Hthis Hst). cbn [nullish].
        unfold storage_run. mstep (cell_of_ref st w). rewrite Hstore.
        mstep (eq_refl : storage_put st ctx w = (Normal tt, with_store st ctx w)).
        assert (Hnext : attempt next (with_store st ctx w) = (Normal x, w2))
          by (unfold attempt; by rewrite Hx).
        mstep Hnext.
        mstep (eq_refl : storage_put st outer w2 = (Normal tt, with_store st outer w2)).
        by destruct x. }
      by mstep Hbody.
  - intros Hnull. unfold asyncCtxStorage.
    eexists _, _. split.
    + unfold attempt at 1. unfold bind at 1.
      unfold bind at 1. rewrite get_ref, Hnull. rewrite throw_TypeError_eq. reflexivity.
    + cbn [with_heap heap listeners log].
      split; [apply not_elem_of_dom, is_fresh |].
      split; [apply lookup_insert_eq |].
      split; [intros l' Hl'; by rewrite lookup_insert_ne | done].
Qed.

(** ** Registration in sequence *)

(** X13. Registration keeps the order of the calls: after [use] of each
    function of a list in turn, the middleware list is the former list
    followed by that list. Registration is not undone by a later failure:
    when a value of the list is not a function, [use] throws there and the
    functions before it stay registered. *)
Theorem use_all_in_order (this arr : loc) (pa : option loc) (pas : gmap string value)
    (fns : list value) :
  pas !! "middleware" = Some (VRef arr) ->
  forall (elems : list value) (w : World),
    heap w !! this = Some (CObj pa pas) ->
    heap w !! arr = Some (CArray elems) ->
    (forallb is_function fns = true ->
     use_all this fns w
     = (Normal tt, with_heap (<[arr := CArray (elems ++ fns)]> (heap w)) w))
    /\ (forall pre bad post,
          fns = pre ++ bad :: post ->
          forallb is_function pre = true ->
          is_function bad = false ->
          exists l w',
            use_all this fns w = (Throw (VRef l), w')
            /\ heap w' !! arr = Some (CArray (elems ++ pre))).
Proof.
  intros Hm.
  assert (Hstep : forall f elems w,
            heap w !! this = Some (CObj pa pas) ->
            heap w !! arr = Some (CArray elems) ->
            is_function f = true ->
            use this f w
            = (Normal (VRef this), with_heap (<[arr := CArray (elems ++ [f])]> (heap w)) w)).
  { intros f elems w Hthis Harr Hf. unfold use. rewrite Hf. cbn [negb].
    mstep (get_own this pa pas "middleware" (VRef arr) w Hthis Hm).
    by mstep (Array_push_array arr elems f w Harr). }
  induction fns as [| f rest IH]; intros elems w Hthis Harr.
  - split.
    + intros _. cbn [use_all]. rewrite app_nil_r, insert_id by done.
      by rewrite with_heap_id.
    + intros pre bad post Heq. by destruct pre.
  - assert (Hne : arr <> this) by congruence.
    split.
    + intros Hall. cbn [forallb] in Hall. apply andb_true_iff in Hall as [Hf Hrest].
      cbn [use_all]. mstep (Hstep f elems w Hthis Harr Hf).
      destruct (IH (elems ++ [f])
                  (with_heap (<[arr := CArray (elems ++ [f])]> (heap w)) w)) as [IHok _].
      { cbn [with_heap heap]. by rewrite lookup_insert_ne. }
      { cbn [with_heap heap]. apply lookup_insert_eq. }
      rewrite (IHok Hrest). cbn [with_heap heap listeners log].
      by rewrite insert_insert_eq, <- app_assoc.
    + intros pre bad post Heq Hpre Hbad. destruct pre as [| f' pre].
      * cbn [app] in Heq. injection Heq as -> ->.
        cbn [use_all]. unfold use. rewrite Hbad. cbn [negb].
        eexists _, _. split; [reflexivity |].
        cbn [with_heap heap]. rewrite app_nil_r.
        rewrite lookup_insert_ne; [done |].
        intros Heq. pose proof (is_fresh (dom (heap w))) as Hfresh.
        rewrite Heq in Hfresh. apply Hfresh, elem_of_dom. eauto.
      * cbn [app] in Heq. injection Heq as -> ->.
        cbn [forallb] in Hpre. apply andb_true_iff in Hpre as [Hf Hpre].
        cbn [use_all]. mstep (Hstep f' elems w Hthis Harr Hf).
        destruct (IH (elems ++ [f'])
                    (with_heap (<[arr := CArray (elems ++ [f'])]> (heap w)) w)) as [_ IHbad].
        { cbn [with_heap heap]. by rewrite lookup_insert_ne. }
        { cbn [with_heap heap]. apply lookup_insert_eq. }
        destruct (IHbad pre bad post eq_refl Hpre Hbad) as (l & w' & Hrun & Harr').
        exists l, w'. split; [exact Hrun |]. by rewrite Harr', <- app_assoc.
Qed.

(** ** More of the constructor *)

Tactic Notation "run_constructor" constr(w) constr(options) constr(mc) constr(mr)
    constr(ms) ident(this) ident(arr) ident(c) ident(rq) ident(rs) ident(st) :=
  let o := fresh "o" in
  let failure := fresh "failure" in
  let vproxy := fresh "vproxy" in
  let vsub := fresh "vsub" in
  let vhdr := fresh "vhdr" in
  let vmax := fresh "vmax" in
  let venv := fresh "venv" in
  let vcompose := fresh "vcompose" in
  let vkeys := fresh "vkeys" in
  let vals := fresh "vals" in
  let Hproxy := fresh "Hproxy" in
  let Hsub := fresh "Hsub" in
  let Hhdr := fresh "Hhdr" in
  let Hmax := fresh "Hmax" in
  let Henv := fresh "Henv" in
  let Hcompose := fresh "Hcompose" in
  let Hkeys := fresh "Hkeys" in
  let Hvals := fresh "Hvals" in
  pose proof (tracks_init w) as T;
  step_alloc_cell (CObj None ∅) this;
  mstep (Emitter_init_eq this _);
  lazymatch goal with
  | T : tracks _ ?W _ |- _ =>
      rewrite (tracks_listeners _ _ _ T);
      apply (tracks_with_listeners _ _ _ (<[this := ∅]> (listeners w))) in T
  end;
  destruct (truthy options) eqn:Hopt;
    [pose proof (truthy_not_nullish _ Hopt) as Hnn; step_ret | step_new_object o];
  (step_read_option w options vproxy Hproxy; step_set);
  (step_read_option w options vsub Hsub; step_set);
  (step_read_option w options vhdr Hhdr; step_set);
  (step_read_option w options vmax Hmax; step_set);
  (step_read_option w options venv Henv; step_set);
  (step_read_option w options vcompose Hcompose; step_set);
  step_read_option w options vkeys Hkeys;
  (destruct (truthy vkeys) eqn:Htk; [step_set | step_ret]);
  (step_alloc_cell (CArray []) arr; step_set);
  (step_create mc c; step_set);
  (step_create mr rq; step_set);
  (step_create ms rs; step_set);
  (destruct (has_inspect_custom _);
     [ lazymatch goal with
       | T : tracks ?w0 ?W ?ts |- _ =>
           rewrite ?bind_bind;
           erewrite (bind_Normal _ _ _ _ _
                       (tracks_method_value w0 W ts this _ "inspect" FnInspect T eq_refl
                          ltac:(absent_key)))
       end; step_set
     | step_ret ]);
  step_read_option w options vals Hvals;
  (destruct (truthy vals);
      [ destruct (has_AsyncLocalStorage _);
        [ step_alloc_cell (CStorage VUndefined) st; step_set
        | step_alloc_any failure ]
      | step_ret ]).

Section Layout.

Variable env : Imports.

Lemma new_Application_layout (options : value) (w : World) (mc mr ms : loc)
    (this : loc) (w' : World) :
  context_module env = VRef mc ->
  request_module env = VRef mr ->
  response_module env = VRef ms ->
  new_Application env options w = (Normal this, w') ->
  laid_out mc mr ms w this w'.
Proof.
  intros Hmc Hmr Hms.
  unfold new_Application, constructor. rewrite Hmc, Hmr, Hms.
  run_constructor w options mc mr ms this0 arr c rq rs st.
  all: intros Hrun; try discriminate Hrun.
  all: injection Hrun as <- <-.
  all: eexists _, arr, c, rq, rs.
  all: split; [tracked_cell |].
  all: do 4 (split; [present_key |]).
  all: do 4 (split; [tracked_cell |]).
  all: do 5 (split; [tracked_new |]).
  all: split; [intros l x Hl; eapply tracks_lookup_old; [eassumption | exact Hl] |].
  all: first [ left; absent_key
             | right; exists st; split; [present_key |]; split; [tracked_cell | tracked_new] ].
Qed.

(** X14. Two applications share nothing but the imported modules: the
    application built second, its middleware list and its templates are
    objects other than those of the first, which the second construction
    leaves as they were. So a middleware registered with one application is
    not in the list of the other, and a property added to the context
    template of one is not seen through the template of the other. *)
Theorem applications_isolated (o1 o2 : value) (w w1 w2 : World) (mc mr ms a1 a2 : loc) :
  context_module env = VRef mc ->
  request_module env = VRef mr ->
  response_module env = VRef ms ->
  new_Application env o1 w = (Normal a1, w1) ->
  new_Application env o2 w1 = (Normal a2, w2) ->
  exists arr1 arr2 c1 c2,
    a1 <> a2 /\ arr1 <> arr2 /\ c1 <> c2
    /\ cell_get (heap w2) a1 "middleware" = VRef arr1
    /\ cell_get (heap w2) a2 "middleware" = VRef arr2
    /\ cell_get (heap w2) a1 "context" = VRef c1
    /\ cell_get (heap w2) a2 "context" = VRef c2
    /\ cell_get (heap w2) a1 "request" <> cell_get (heap w2) a2 "request"
    /\ cell_get (heap w2) a1 "response" <> cell_get (heap w2) a2 "response"
    /\ (forall f,
          is_function f = true ->
          exists w3,
            use a1 f w2 = (Normal (VRef a1), w3)
            /\ heap w3 !! arr1 = Some (CArray [f])
            /\ heap w3 !! arr2 = Some (CArray []))
    /\ (forall k v,
          exists w3,
            set (VRef c1) k v w2 = (Normal tt, w3)
            /\ heap w3 !! c1 = Some (CObj (Some mc) (<[k := v]> ∅))
            /\ heap w3 !! c2 = Some (CObj (Some mc) ∅)).
Proof.
  intros Hmc Hmr Hms Hrun1 Hrun2.
  destruct (new_Application_layout _ _ _ _ _ _ _ Hmc Hmr Hms Hrun1)
    as (ps1 & arr1 & c1 & rq1 & rs1 & Ha1 & Pm1 & Pc1 & Prq1 & Prs1
        & Harr1 & Hc1 & Hrq1 & Hrs1 & _ & _ & _ & _ & _ & _ & _).
  destruct (new_Application_layout _ _ _ _ _ _ _ Hmc Hmr Hms Hrun2)
    as (ps2 & arr2 & c2 & rq2 & rs2 & Ha2 & Pm2 & Pc2 & Prq2 & Prs2
        & Harr2 & Hc2 & Hrq2 & Hrs2 & Na2 & Narr2 & Nc2 & Nrq2 & Nrs2 & Hold & _).
  pose proof (Hold _ _ Ha1) as Ha1'.
  pose proof (Hold _ _ Harr1) as Harr1'.
  pose proof (Hold _ _ Hc1) as Hc1'.
  exists arr1, arr2, c1, c2.
  split; [congruence |]. split; [congruence |]. split; [congruence |].
  split; [by eapply cell_get_own |]. split; [by eapply cell_get_own |].
  split; [by eapply cell_get_own |]. split; [by eapply cell_get_own |].
  split.
  { rewrite (cell_get_own _ _ _ _ _ _ Ha1' Prq1), (cell_get_own _ _ _ _ _ _ Ha2 Prq2).
    congruence. }
  split.
  { rewrite (cell_get_own _ _ _ _ _ _ Ha1' Prs1), (cell_get_own _ _ _ _ _ _ Ha2 Prs2).
    congruence. }
  split.
  - intros f Hf. eexists. split.
    + unfold use. rewrite Hf. cbn [negb].
      mstep (get_own a1 None ps1 "middleware" (VRef arr1) w2 Ha1' Pm1).
      by mstep (Array_push_array arr1 [] f w2 Harr1').
    + cbn [with_heap heap]. split; [apply lookup_insert_eq |].
      rewrite lookup_insert_ne; [done | congruence].
  - intros k v. eexists. split; [by apply set_obj |].
    cbn [with_heap heap]. split; [apply lookup_insert_eq |].
    rewrite lookup_insert_ne; [done | congruence].
Qed.

(** X15. Outside a request the current context of a new application is
    [undefined], whether or not it was built with [asyncLocalStorage]. *)
Theorem currentContext_of_new_application (options : value) (w w' : World)
    (mc mr ms this : loc) :
  context_module env = VRef mc ->
  request_module env = VRef mr ->
  response_module env = VRef ms ->
  new_Application env options w = (Normal this, w') ->
  currentContext this w' = (Normal VUndefined, w').
Proof.
  intros Hmc Hmr Hms Hrun.
  destruct (new_Application_layout _ _ _ _ _ _ _ Hmc Hmr Hms Hrun)
    as (ps & arr & c & rq & rs & Hthis & _ & _ & _ & _ & _ & _ & _ & _
        & _ & _ & _ & _ & _ & _ & [Hnone | (st & Hst & Hstore & _)]).
  - unfold currentContext. mstep (get_ref this "ctxStorage" w').
    by rewrite (cell_get_absent _ _ _ _ Hthis Hnone).
  - unfold currentContext.
    mstep (get_own this None ps "ctxStorage" (VRef st) w' Hthis Hst). cbn [truthy].
    unfold storage_getStore. mstep (cell_of_ref st w'). by rewrite Hstore.
Qed.

(** X16. The snapshot of a new application has exactly the three fields
    [subdomainOffset], [proxy] and [env], whatever the options: the
    constructor leaves none of them [null] or [undefined]. *)
Theorem toJSON_of_new_application (options : value) (w w1 : World)
    (mc mr ms this : loc) :
  context_module env = VRef mc ->
  request_module env = VRef mr ->
  response_module env = VRef ms ->
  new_Application env options w = (Normal this, w1) ->
  exists j w2 props,
    toJSON this w1 = (Normal (VRef j), w2)
    /\ heap w2 !! j = Some (CObj None props)
    /\ dom props = {["subdomainOffset"; "proxy"; "env"]}
    /\ props !! "subdomainOffset" <> Some (VNum 0).
Proof.
  intros Hmc Hmr Hms Hrun.
  destruct (new_Application_cells env options w mc mr ms Hmc Hmr Hms)
    as [(this0 & w0 & Hrun0 & Hbuilt) | (_ & e & w0 & Hrun0)]; [| congruence].
  rewrite Hrun in Hrun0. injection Hrun0 as <- <-.
  destruct Hbuilt
    as (ps & vproxy & vsub & vhdr & vmax & venv & vcompose & vkeys
        & arr & c & rq & rs & _ & Hthis & _ & _ & _
        & _ & _ & _ & _ & _ & _ & _
        & Pproxy & Psub & _ & _ & Penv & _).
  eexists _, _, _.
  split; [by apply toJSON_run |].
  cbn [with_heap heap].
  split; [apply lookup_insert_eq |].
  split.
  - apply snapshot_dom_settings. intros k Hk.
    rewrite !elem_of_cons, elem_of_nil in Hk.
    destruct Hk as [-> | [-> | [-> | []]]]; eexists; (split; [eassumption |]);
      by apply js_or_not_nullish.
  - intros Hzero. apply snapshot_lookup in Hzero as (_ & Hzero & _).
    rewrite Psub in Hzero. injection Hzero as Hzero. by apply js_or_not_zero in Hzero.
Qed.

End Layout.

(** ** More of the contexts *)

Lemma context_props_own this req res request response target state k :
  k ∉ context_keys ->
  context_props this req res request response target state !! k = None.
Proof.
  unfold context_keys, context_props. rewrite !not_elem_of_cons. intros H.
  repeat (rewrite lookup_insert_ne by (intros <-; tauto)). apply lookup_empty.
Qed.

Lemma context_props_shadow this req res request response target state k :
  k ∈ context_keys ->
  is_Some (context_props this req res request response target state !! k).
Proof.
  unfold context_keys, context_props. rewrite !elem_of_cons, elem_of_nil.
  intros [-> | [-> | [-> | [-> | [-> | [-> | [-> | []]]]]]]];
    eexists; present_key.
Qed.

Lemma size_two {A} (h : gmap loc A) a b x y :
  h !! a = Some x -> h !! b = Some y -> a <> b -> exists n, size h = S (S n).
Proof.
  intros Ha Hb Hne.
  assert (Hd : size (delete a h) <> 0%nat).
  { apply (map_size_ne_0_lookup_2 _ b). rewrite lookup_delete_ne by done. eauto. }
  rewrite map_size_delete_Some in Hd by eauto.
  destruct (size h) as [| [| n]]; [done | done | eauto].
Qed.

(** A property found on the prototype, one step up. *)
Lemma cell_get_inherited h l p ps pp pps k v :
  h !! l = Some (CObj (Some p) ps) -> ps !! k = None ->
  h !! p = Some (CObj pp pps) -> pps !! k = Some v ->
  cell_get h l k = v.
Proof.
  intros Hl Hk Hp Hv. unfold cell_get. rewrite Hl.
  destruct (size h) as [| n] eqn:Hsize.
  - apply map_size_empty_inv in Hsize. subst h. by rewrite lookup_empty in Hl.
  - cbn [lookup_chain]. rewrite Hl, Hk. destruct n; cbn [lookup_chain]; by rewrite Hp, Hv.
Qed.

(** A property found two steps up. *)
Lemma cell_get_inherited_twice h l p ps pp pps ppp ppps k v :
  h !! l = Some (CObj (Some p) ps) -> ps !! k = None ->
  h !! p = Some (CObj (Some pp) pps) -> pps !! k = None ->
  h !! pp = Some (CObj ppp ppps) -> ppps !! k = Some v ->
  l <> p ->
  cell_get h l k = v.
Proof.
  intros Hl Hk Hp Hpk Hpp Hv Hne. unfold cell_get. rewrite Hl.
  destruct (size_two h l p _ _ Hl Hp Hne) as [n ->].
  cbn [lookup_chain]. rewrite Hl, Hk, Hp, Hpk.
  destruct n; cbn [lookup_chain]; by rewrite Hpp, Hv.
Qed.

(** X17. [createContext] allocates four objects and does nothing else: the
    context, its request, its response and its state are four different
    objects that did not exist before, every other object of the heap
    (the application, its templates and the raw pair included) is as it
    was, and neither the listeners nor the trace change. *)
Theorem createContext_allocates_four (this q tc trq trs : loc) (pa : option loc)
    (pas : gmap string value) (rq : IncomingMessage) (res : value) (w : World) :
  heap w !! this = Some (CObj pa pas) ->
  pas !! "context" = Some (VRef tc) ->
  pas !! "request" = Some (VRef trq) ->
  pas !! "response" = Some (VRef trs) ->
  heap w !! q = Some (CReq rq) ->
  exists c request response state w1,
    createContext this (VRef q) res w = (Normal (VRef c), w1)
    /\ NoDup [c; request; response; state]
    /\ (forall l, l ∈ [c; request; response; state] ->
                  heap w !! l = None /\ is_Some (heap w1 !! l))
    /\ (forall l, l ∉ [c; request; response; state] -> heap w1 !! l = heap w !! l)
    /\ listeners w1 = listeners w
    /\ log w1 = log w.
Proof.
  intros Hthis Hctx Hreq Hresp Hq.
  destruct (createContext_cells this q tc trq trs pa pas rq res w
              Hthis Hctx Hreq Hresp Hq)
    as (c & request & response & state & w1 & Hrun & T).
  exists c, request, response, state, w1.
  split; [exact Hrun |].
  split; [exact (tracks_nodup _ _ _ T) |].
  split.
  { intros l. rewrite !elem_of_cons, elem_of_nil.
    intros [-> | [-> | [-> | [-> | []]]]]; (split; [tracked_new | eexists; tracked_cell]). }
  split; [exact (tracks_old _ _ _ T) |].
  split; [exact (tracks_listeners _ _ _ T) | exact (tracks_log _ _ _ T)].
Qed.

(** X18. Without a raw request ([null] or [undefined]) [createContext]
    throws a [TypeError] when it reads the URL; the objects that existed
    before are as they were, and neither the listeners nor the trace
    change. *)
Theorem createContext_without_request (this tc trq trs : loc) (pa : option loc)
    (pas : gmap string value) (req res : value) (w : World) :
  heap w !! this = Some (CObj pa pas) ->
  pas !! "context" = Some (VRef tc) ->
  pas !! "request" = Some (VRef trq) ->
  pas !! "response" = Some (VRef trs) ->
  nullish req = true ->
  exists l w',
    createContext this req res w = (Throw (VRef l), w')
    /\ heap w !! l = None
    /\ heap w' !! l
       = Some (CError (type_error ("Cannot read properties of " +:+ js_String req)))
    /\ (forall l' x, heap w !! l' = Some x -> heap w' !! l' = Some x)
    /\ listeners w' = listeners w
    /\ log w' = log w.
Proof.
  intros Hthis Hctx Hreq Hresp Hnull.
  pose proof (tracks_init w) as T.
  unfold createContext.
  step_get_old Hthis Hctx.
  step_create tc c.
  step_get_old Hthis Hreq.
  step_create trq request.
  step_set.
  step_get_old Hthis Hresp.
  step_create trs response.
  do 14 step_set.
  unfold get at 1. rewrite Hnull. unfold throw_TypeError.
  step_alloc_any failure.
  exists failure. eexists. split; [reflexivity |].
  split; [tracked_new |].
  split; [tracked_cell |].
  split; [intros l' x Hl'; by eapply tracks_lookup_old |].
  split; [exact (tracks_listeners _ _ _ T0) | exact (tracks_log _ _ _ T0)].
Qed.

(** X19. A context inherits from the context template of its application,
    which inherits from the imported module, and the link is live: a
    property of the template, one added to the template after the context
    was created, and a property of the module that the template does not
    define are all read through the context, unless it is one of the
    properties that [createContext] assigns, which the context has of its
    own. *)
Theorem context_delegation (this q tc trq trs : loc) (pa ptc : option loc)
    (pas ptcs : gmap string value) (rq : IncomingMessage) (res : value) (w : World) :
  heap w !! this = Some (CObj pa pas) ->
  pas !! "context" = Some (VRef tc) ->
  pas !! "request" = Some (VRef trq) ->
  pas !! "response" = Some (VRef trs) ->
  heap w !! tc = Some (CObj ptc ptcs) ->
  heap w !! q = Some (CReq rq) ->
  exists c w1,
    createContext this (VRef q) res w = (Normal (VRef c), w1)
    /\ (forall k v,
          k ∉ context_keys -> ptcs !! k = Some v -> cell_get (heap w1) c k = v)
    /\ (forall k v,
          k ∉ context_keys ->
          exists w2,
            set (VRef tc) k v w1 = (Normal tt, w2) /\ cell_get (heap w2) c k = v)
    /\ (forall k v mc pmc pmcs,
          k ∉ context_keys ->
          ptc = Some mc ->
          heap w !! mc = Some (CObj pmc pmcs) ->
          ptcs !! k = None ->
          pmcs !! k = Some v ->
          cell_get (heap w1) c k = v)
    /\ (forall k v,
          k ∈ context_keys ->
          exists w2,
            set (VRef tc) k v w1 = (Normal tt, w2)
            /\ cell_get (heap w2) c k = cell_get (heap w1) c k).
Proof.
  intros Hthis Hctx Hreq Hresp Htc Hq.
  destruct (createContext_cells this q tc trq trs pa pas rq res w
              Hthis Hctx Hreq Hresp Hq)
    as (c & request & response & state & w1 & Hrun & T).
  pose proof (tracks_cells _ _ _ T 0%nat _ _ eq_refl) as Hc.
  pose proof (tracks_new _ _ _ T 0%nat _ _ eq_refl) as Hcnew.
  pose proof (tracks_lookup_old _ _ _ _ _ T Htc) as Htc1.
  assert (Hne : c <> tc) by congruence.
  exists c, w1. split; [exact Hrun |].
  split; [| split; [| split]].
  - intros k v Hk Hv.
    eapply cell_get_inherited; [exact Hc | by apply context_props_own | exact Htc1 | exact Hv].
  - intros k v Hk. eexists. split; [by apply set_obj |].
    cbn [with_heap heap].
    eapply cell_get_inherited.
    + rewrite lookup_insert_ne by done. exact Hc.
    + by apply context_props_own.
    + apply lookup_insert_eq.
    + apply lookup_insert_eq.
  - intros k v mc pmc pmcs Hk -> Hmc Hnone Hv.
    eapply cell_get_inherited_twice;
      [exact Hc | by apply context_props_own | exact Htc1 | exact Hnone
      | by eapply tracks_lookup_old | exact Hv | exact Hne].
  - intros k v Hk. eexists. split; [by apply set_obj |].
    cbn [with_heap heap].
    destruct (context_props_shadow this (VRef q) res (VRef request) (VRef response)
                (url rq) (VRef state) k Hk) as [x Hx].
    rewrite (cell_get_own _ _ _ _ _ _ Hc Hx).
    eapply cell_get_own; [| exact Hx].
    rewrite lookup_insert_ne by done. exact Hc.
Qed.

(** ** More of the indentation *)

Lemma indent_after_no_pair p2 p2' p1 s :
  nat_of_ascii p1 <> 128%nat -> indent_after p2 p1 s = indent_after p2' p1 s.
Proof.
  intros H. destruct s as [| c rest]; [reflexivity |].
  cbn [indent_after]. unfold ends_line.
  apply Nat.eqb_neq in H. by rewrite H, !andb_false_r.
Qed.

Lemma indent_after_app_CR p2 p1 (a b : string) :
  indent_after p2 p1 (a +:+ String CR b)
  = indent_after p2 p1 a +:+ String CR ("  " +:+ indent_after zero CR b).
Proof.
  revert p2 p1. induction a as [| c a IH]; intros p2 p1.
  - rewrite append_empty. cbn [indent_after]. rewrite append_empty.
    replace (ends_line p2 p1 CR) with true by reflexivity.
    do 2 f_equal.
    apply indent_after_no_pair. by compute.
  - rewrite append_String. cbn [indent_after]. rewrite IH.
    destruct (ends_line p2 p1 c); by rewrite ?append_String.
Qed.

(** X20. Every line of the diagnostic is indented: for a text made of
    lines without line terminators joined by LF, the replacement of
    [/^/gm] by two spaces puts two spaces in front of every line, the first
    one and the empty ones included. *)
Theorem indent_lines (first : string) (rest : list string) :
  plain first = true ->
  forallb plain rest = true ->
  indent (unlines first rest)
  = unlines ("  " +:+ first) (map (fun l => "  " +:+ l) rest).
Proof.
  revert first. induction rest as [| l rest IH]; intros first Hfirst Hrest.
  - by apply indent_plain.
  - cbn [forallb] in Hrest. apply andb_true_iff in Hrest as [Hl Hrest].
    cbn [unlines map]. rewrite indent_app_LF, (IH l Hl Hrest).
    by rewrite (indent_plain first Hfirst).
Qed.

(** X21. The replacement of [/^/gm] treats CR and LF as two line
    terminators: after a CR LF pair the two spaces are inserted twice,
    between the CR and the LF and after the LF. *)
Theorem indent_CRLF (a b : string) :
  indent (a +:+ String CR (String LF b))
  = indent a +:+ String CR ("  " +:+ String LF (indent b)).
Proof.
  unfold indent. rewrite !append_String, !append_empty.
  rewrite indent_after_app_CR. cbn [indent_after].
  replace (ends_line zero CR LF) with true by reflexivity.
  rewrite (indent_after_restart CR zero LF zero b) by (by compute).
  by rewrite !append_String, !append_empty.
Qed.

(** ** Composition and later registrations *)

Lemma use_all_appends (this arr : loc) (pa : option loc) (pas : gmap string value)
    (fns : list value) :
  pas !! "middleware" = Some (VRef arr) ->
  forallb is_function fns = true ->
  forall (elems : list value) (w : World),
    heap w !! this = Some (CObj pa pas) ->
    heap w !! arr = Some (CArray elems) ->
    use_all this fns w
    = (Normal tt, with_heap (<[arr := CArray (elems ++ fns)]> (heap w)) w).
Proof.
  intros Hm. induction fns as [| f rest IH]; intros Hall elems w Hthis Harr.
  - cbn [use_all]. rewrite app_nil_r, insert_id by done. by rewrite with_heap_id.
  - cbn [forallb] in Hall. apply andb_true_iff in Hall as [Hf Hrest].
    assert (Hne : arr <> this) by congruence.
    cbn [use_all]. unfold use at 1. rewrite Hf. cbn [negb].
    mstep (get_own this pa pas "middleware" (VRef arr) w Hthis Hm).
    mstep (Array_push_array arr elems f w Harr).
    mstep (eq_refl : ret (VRef this) _ = (Normal _, _)).
    rewrite (IH Hrest (elems ++ [f])).
    + cbn [with_heap heap listeners log].
      by rewrite insert_insert_eq, <- app_assoc.
    + cbn [with_heap heap]. by rewrite lookup_insert_ne.
    + cbn [with_heap heap]. apply lookup_insert_eq.
Qed.

Lemma koa_compose_copies (arr : loc) (ms : list value) (w : World) :
  heap w !! arr = Some (CArray ms) ->
  forallb is_function ms = true ->
  koa_compose (VRef arr) w
  = (Normal (pipeline_over (fresh (dom (heap w)))),
     with_heap (<[fresh (dom (heap w)) := CArray ms]> (heap w)) w).
Proof.
  intros Harr Hall. unfold koa_compose.
  mstep (cell_of_ref arr w). rewrite Harr, Hall. reflexivity.
Qed.

Section Freezing.

Variable host : Host.
Variable env : Imports.
Variable run : value -> value -> M settlement -> M settlement.

(** The host runs [koa-compose] for the imported composition function and
    the list kept by a pipeline when the pipeline is called. *)
Hypothesis compose_is_koa_compose :
  forall this middleware w,
    call host FnKoaCompose this [middleware] w = koa_compose middleware w.

Hypothesis pipeline_dispatches :
  forall copy ctx w,
    call_async host (FnUser (1000 + Pos.to_nat copy)) [ctx] w = dispatch run copy ctx w.

Lemma pipeline_runs (copy : loc) (ms : list value) (ctx : value) (W : World) :
  heap W !! copy = Some (CArray ms) ->
  invoke_async host (pipeline_over copy) [ctx] W = run_chain run ms ctx W.
Proof.
  intros Hcopy. unfold pipeline_over. cbn [invoke_async].
  rewrite pipeline_dispatches. unfold dispatch.
  mstep (cell_of_ref copy W). by rewrite Hcopy.
Qed.


End Freezing.

(** * The properties on the sample world *)

Import Sample Cases.

Lemma wired_originalUrl w this req res c request response state target :
  wired w this req res c request response state target ->
  cell_get (heap w) c "originalUrl" = target.
Proof. unfold wired. tauto. Qed.

Lemma handleRequest_dispatch_witness :
  cell_get (heap exchange) 20 "res" = VRef 11
  /\ heap exchange !! 11%positive = Some (CRes res0_record)
  /\ fst (handleRequest host env app (VRef 20) (VFun (FnUser 50)) exchange)
     = Normal Fulfilled
  /\ log (snd (handleRequest host env app (VRef 20) (VFun (FnUser 50)) exchange))
     = [EvOnFinished (VRef 11) (VRef 20); EvEnd 11 (Some (VStr "Not Found"))]
  /\ handleRequest host env app (VRef 20) (VFun (FnUser 51)) exchange
     = (Normal Fulfilled, before_pipeline 20 11 res0_record exchange).
Proof.
  assert (Hres : cell_get (heap exchange) 20 "res" = VRef 11) by (vm_compute; reflexivity).
  assert (Hr : heap exchange !! 11%positive = Some (CRes res0_record))
    by (vm_compute; reflexivity).
  split; [exact Hres |]. split; [exact Hr |].
  destruct (handleRequest_dispatch host env app 20 11 res0_record (FnUser 50) exchange Hres Hr)
    as (_ & Hok & _).
  destruct (handleRequest_dispatch host env app 20 11 res0_record (FnUser 51) exchange Hres Hr)
    as (_ & _ & Herr).
  rewrite (Hok (before_pipeline 20 11 res0_record exchange) ltac:(vm_compute; reflexivity)).
  rewrite (Herr (VStr "boom") (before_pipeline 20 11 res0_record exchange) (FnUser 8)
             ltac:(vm_compute; reflexivity) ltac:(vm_compute; reflexivity)).
  repeat split; vm_compute; reflexivity.
Defined.


Lemma respond_empty_status_witness :
  respond host env (VRef 20) (exchange_with no_content_props)
  = (Normal tt,
     emit_event (EvEnd 11 None)
       (with_heap
          (<[20%positive := CObj (Some 1%positive) (<["body" := VNull]> no_content_props)]>
             (heap (exchange_with no_content_props)))
          (exchange_with no_content_props)))
  /\ cell_get (heap (exchange_with no_content_props)) 20 "body" = VStr "ignored".
Proof.
  split; [| vm_compute; reflexivity].
  apply (respond_empty_status host env (exchange_with no_content_props) 20 11
           (Some 1%positive) no_content_props res0_record);
    vm_compute; reflexivity.
Defined.


Lemma use_registers_witness :
  use app (VFun (FnUser 1)) booted
  = (Normal (VRef app),
     with_heap (<[16%positive := CArray [VFun (FnUser 1)]]> (heap booted)) booted)
  /\ exists l w',
       use app (VStr "not a function") booted = (Throw (VRef l), w')
       /\ heap w' !! 16%positive = Some (CArray []).
Proof.
  assert (Hm : cell_get (heap booted) app "middleware" = VRef 16)
    by (vm_compute; reflexivity).
  assert (Harr : heap booted !! 16%positive = Some (CArray []))
    by (vm_compute; reflexivity).
  destruct (use_registers app 16 [] (VFun (FnUser 1)) booted Hm Harr) as (_ & Hok).
  destruct (use_registers app 16 [] (VStr "not a function") booted Hm Harr) as (Hbad & _).
  split; [exact (Hok eq_refl) |].
  destruct (Hbad eq_refl) as (l & w' & Hrun & _ & Hkept & _). eauto.
Defined.

Lemma createContext_wiring_witness :
  exists c1 c2 w1 w2,
    createContext app (VRef 10) (VRef 11) booted = (Normal (VRef c1), w1)
    /\ createContext app (VRef 12) (VRef 13) w1 = (Normal (VRef c2), w2)
    /\ c1 <> c2
    /\ cell_get (heap w2) c1 "originalUrl" = VStr "/one"
    /\ cell_get (heap w2) c2 "originalUrl" = VStr "/two".
Proof.
  destruct (createContext_wiring app 10 12 17 18 19 None app_props
              req1_record req2_record (VRef 11) (VRef 13) booted
              ltac:(vm_compute; reflexivity) ltac:(vm_compute; reflexivity)
              ltac:(vm_compute; reflexivity) ltac:(vm_compute; reflexivity)
              ltac:(vm_compute; reflexivity) ltac:(vm_compute; reflexivity))
    as (c1 & request1 & response1 & state1 & w1 & c2 & request2 & response2 & state2 & w2
        & Hrun1 & _ & _ & _ & Hrun2 & Hwired2 & Hwired1 & Hne & _).
  exists c1, c2, w1, w2.
  split; [exact Hrun1 |]. split; [exact Hrun2 |]. split; [exact Hne |].
  split; [exact (wired_originalUrl _ _ _ _ _ _ _ _ _ Hwired1)
         | exact (wired_originalUrl _ _ _ _ _ _ _ _ _ Hwired2)].
Defined.

Lemma sample_compose this middleware w :
  call host FnKoaCompose this [middleware] w = koa_compose middleware w.
Proof. reflexivity. Qed.

Lemma sample_pipeline copy ctx w :
  call_async host (FnUser (1000 + Pos.to_nat copy)) [ctx] w
  = dispatch run_middleware copy ctx w.
Proof.
  cbn [call_async host]. generalize (Pos2Nat.id copy).
  generalize (Pos.to_nat copy). intros n Hn.
  unfold sample_call_async.
  replace (1000 <=? 1000 + n)%nat with true by (symmetry; apply Nat.leb_le; lia).
  replace (1000 + n - 1000)%nat with n by lia.
  rewrite Hn. reflexivity.
Qed.


(** A request served by the handler that was returned before the second
    registration runs the first middleware only. *)
Example later_use_is_not_served :
  log (snd (early_only world))
  = [EvOnFinished (VRef 11) (VRef 21); EvConsoleError "1";
     EvEnd 11 (Some (VStr "Not Found"))]
  /\ log (snd (late_registration world)) = log (snd (early_only world)).
Proof. split; vm_compute; reflexivity. Qed.


Lemma toJSON_snapshot_witness :
  exists j w',
    toJSON app booted = (Normal (VRef j), w')
    /\ heap w' !! j
       = Some (CObj None
                 (<["subdomainOffset" := VNum 2]>
                    (<["proxy" := VBool false]> (<["env" := VStr "development"]> ∅)))).
Proof.
  destruct (toJSON_snapshot app app_props booted ltac:(vm_compute; reflexivity))
    as (j & w' & Hrun & _ & _ & Hj & _).
  exists j, w'. split; [exact Hrun |].
  rewrite Hj. vm_compute. reflexivity.
Defined.

(** C8, the claim as stated fails: after [app.env = undefined] the snapshot
    has no field [env]. *)
Lemma toJSON_omits_undefined_env :
  fst (cleared_env_snapshot world) = Normal ({["subdomainOffset"; "proxy"]} : gset string).
Proof. vm_compute. reflexivity. Qed.

Lemma handleRequest_rejects_only_from_onerror_witness :
  fst (respond host env (VRef 20)
         (before_pipeline 20 11 res0_record (exchange_with bigint_props)))
  = Throw (VRef 23)
  /\ fst (handleRequest host env app (VRef 20) (VFun (FnUser 50)) (exchange_with bigint_props))
     = Normal Fulfilled.
Proof.
  split; [vm_compute; reflexivity |].
  destruct (handleRequest_rejects_only_from_onerror host env app (VRef 20)
              (VFun (FnUser 50)) (exchange_with bigint_props))
    as (_ & Hcaught).
  pose (w2 := before_pipeline 20 11 res0_record (exchange_with bigint_props)).
  destruct (Hcaught 20%positive 11%positive res0_record (FnUser 50) w2 (VRef 23)
              (snd (respond host env (VRef 20) w2)) eq_refl eq_refl
              ltac:(vm_compute; reflexivity) ltac:(vm_compute; reflexivity)
              ltac:(vm_compute; reflexivity) ltac:(vm_compute; reflexivity))
    as (_ & Hfulfilled).
  rewrite (Hfulfilled VUndefined (snd (respond host env (VRef 20) w2))
             ltac:(vm_compute; reflexivity)).
  reflexivity.
Defined.

(** C9, the claim as stated fails: when the [onerror] hook of the context
    throws, the promise returned by [handleRequest] is rejected. *)
Lemma handleRequest_rejects_when_hook_throws :
  fst (handleRequest host env app (VRef 20) (VFun (FnUser 51))
         (exchange_with failing_hook_props))
  = Normal (Rejected (VStr "hook failed")).
Proof. vm_compute. reflexivity. Qed.

Lemma constructor_defaults_witness :
  exists this w' ps,
    new_Application env (VRef 40) with_options = (Normal this, w')
    /\ heap w' !! this = Some (CObj None ps)
    /\ ps !! "subdomainOffset" = Some (VNum 2)
    /\ ps !! "proxyIpHeader" = Some (VStr "X-Forwarded-For")
    /\ ps !! "env" = Some (VStr "development").
Proof.
  destruct (constructor_defaults env (VRef 40) with_options 1 2 3 eq_refl eq_refl eq_refl)
    as (Hreturns & Hdefaults).
  destruct (Hreturns eq_refl) as (this & w' & Hrun).
  destruct (Hdefaults this w' Hrun) as (ps & Hthis & _ & Hfalsy).
  destruct (Hfalsy 40%positive None falsy_options eq_refl ltac:(vm_compute; reflexivity))
    as (Hsub & Hhdr & Henv & _).
  exists this, w', ps.
  split; [exact Hrun |]. split; [exact Hthis |].
  split; [exact (Hsub (VNum 0) ltac:(vm_compute; reflexivity) eq_refl) |].
  split; [exact (Hhdr (VStr "") ltac:(vm_compute; reflexivity) eq_refl) |].
  exact (Henv (VStr "") ltac:(vm_compute; reflexivity) eq_refl).
Defined.

(** ** The further properties on the sample world *)


Lemma sample_stringify_inert v : inert (sample_stringify v).
Proof.
  destruct v as [| | | | | | | |]; cbn [sample_stringify];
    first [apply inert_ret | apply inert_throw_TypeError].
Qed.



Lemma respond_raw_body_witness :
  respond host env (VRef 20) (exchange_of (with_body (VStr "hello")) wrapper_props)
  = (Normal tt,
     emit_event (EvEnd 11 (Some (VStr "hello")))
       (exchange_of (with_body (VStr "hello")) wrapper_props))
  /\ respond host env (VRef 20) (exchange_of (with_body (VRef 23)) wrapper_props)
     = (Normal tt,
        emit_event (EvEnd 11 (Some (VRef 23)))
          (exchange_of (with_body (VRef 23)) wrapper_props)).
Proof.
  split.
  - rewrite (respond_raw_body host env (exchange_of (with_body (VStr "hello")) wrapper_props)
               20 11 res0_record
               ltac:(repeat split; vm_compute; reflexivity)
               ltac:(vm_compute; reflexivity) ltac:(vm_compute; reflexivity)).
    vm_compute. reflexivity.
  - rewrite (respond_raw_body host env (exchange_of (with_body (VRef 23)) wrapper_props)
               20 11 res0_record
               ltac:(repeat split; vm_compute; reflexivity)
               ltac:(vm_compute; reflexivity) ltac:(vm_compute; reflexivity)).
    vm_compute. reflexivity.
Defined.

Lemma respond_stream_witness :
  respond host env (VRef 20) (exchange_of (with_body (VRef 24)) wrapper_props)
  = (Normal tt,
     emit_event (EvPipe 24 (VRef 11)) (exchange_of (with_body (VRef 24)) wrapper_props)).
Proof.
  exact (respond_stream host env (exchange_of (with_body (VRef 24)) wrapper_props)
           20 11 24 res0_record
           ltac:(repeat split; vm_compute; reflexivity)
           ltac:(vm_compute; reflexivity) ltac:(vm_compute; reflexivity)
           ltac:(vm_compute; reflexivity)).
Defined.



Lemma callback_error_listener_witness :
  (exists w2,
     callback host env app booted = (Normal (handle host env app (pipeline_over 20)), w2)
     /\ listeners_of booted app "error" = []
     /\ listeners_of w2 app "error" = [VFun FnOnerror])
  /\ exists l w',
       callback host env app onerror_is_number = (Throw (VRef l), w')
       /\ listeners w' = listeners booted.
Proof.
  split.
  - destruct (callback_error_listener host env app FnKoaCompose (pipeline_over 20) booted
                (snd (koa_compose (VRef 16) booted))
                ltac:(vm_compute; reflexivity) ltac:(vm_compute; reflexivity))
      as (_ & Hregisters & _).
    destruct (Hregisters ltac:(vm_compute; reflexivity) ltac:(vm_compute; reflexivity))
      as (Hrun & Hls & _).
    eexists. split; [exact Hrun |]. split; [vm_compute; reflexivity |].
    etransitivity; [exact Hls | vm_compute; reflexivity].
  - destruct (callback_error_listener host env app FnKoaCompose (pipeline_over 20)
                onerror_is_number (snd (koa_compose (VRef 16) onerror_is_number))
                ltac:(vm_compute; reflexivity) ltac:(vm_compute; reflexivity))
      as (_ & _ & Hthrows).
    destruct (Hthrows ltac:(vm_compute; reflexivity) ltac:(vm_compute; reflexivity))
      as (l & w' & Hrun & _ & _ & Hls & _).
    exists l, w'. split; [exact Hrun |].
    etransitivity; [exact Hls | vm_compute; reflexivity].
Defined.

Lemma callback_compose_failure_witness :
  (exists l w',
     callback host env app compose_is_number = (Throw (VRef l), w')
     /\ listeners w' = listeners compose_is_number)
  /\ fst (callback host env app middleware_is_number) = Throw (VRef 20).
Proof.
  destruct (callback_compose_failure host env app compose_is_number) as (Hnf & _).
  destruct (callback_compose_failure host env app middleware_is_number) as (_ & Hthrows).
  split.
  - destruct (Hnf ltac:(vm_compute; reflexivity)) as (l & w' & Hrun & _ & _ & Hls & _).
    exists l, w'. split; [exact Hrun | exact Hls].
  - rewrite (Hthrows FnKoaCompose (VRef 20)
               (snd (sample_call FnKoaCompose (VRef app) [VNum 1] middleware_is_number))
               ltac:(vm_compute; reflexivity) ltac:(vm_compute; reflexivity)).
    reflexivity.
Defined.

Lemma handleRequest_sync_failure_witness :
  (exists l w',
     handleRequest host env app (VRef 20) (VNum 3) exchange = (Throw (VRef l), w')
     /\ heap w' !! 11%positive = Some (CRes (not_found res0_record))
     /\ log w' = [EvOnFinished (VRef 11) (VRef 20)])
  /\ handleRequest failing_host env app (VRef 20) (VFun (FnUser 50)) exchange
     = (Throw (VStr "sync failure"), before_pipeline 20 11 res0_record exchange).
Proof.
  destruct (handleRequest_sync_failure host env app 20 11 res0_record (VNum 3) exchange
              ltac:(vm_compute; reflexivity) ltac:(vm_compute; reflexivity))
    as (Hnf & _).
  destruct (handleRequest_sync_failure failing_host env app 20 11 res0_record
              (VFun (FnUser 50)) exchange
              ltac:(vm_compute; reflexivity) ltac:(vm_compute; reflexivity))
    as (_ & Hthrows).
  split.
  - destruct (Hnf eq_refl) as (l & w' & Hrun & _ & _ & Hres & Hlog).
    exists l, w'. split; [exact Hrun |]. split; [exact Hres | exact Hlog].
  - exact (Hthrows (FnUser 50) (VStr "sync failure")
             (before_pipeline 20 11 res0_record exchange) eq_refl eq_refl).
Defined.

Lemma handle_fresh_context_witness :
  exists c w1,
    createContext app (VRef 10) (VRef 11) booted = (Normal (VRef c), w1)
    /\ heap booted !! c = None
    /\ handle host env app (pipeline_over 16) (VRef 10) (VRef 11) booted
       = bind (invoke_async host (pipeline_over 16) [VRef c])
           (after_pipeline host env (VRef c)) (before_pipeline c 11 res0_record w1).
Proof.
  destruct (handle_fresh_context host env app 10 11 17 18 19 app_props
              req1_record res0_record (pipeline_over 16) booted
              ltac:(vm_compute; reflexivity) ltac:(vm_compute; reflexivity)
              ltac:(vm_compute; reflexivity) ltac:(vm_compute; reflexivity)
              ltac:(vm_compute; reflexivity) ltac:(vm_compute; reflexivity)
              ltac:(vm_compute; reflexivity))
    as (c & request & response & state & w1 & Hrun & Hnew & _ & _ & Hhandle).
  exists c, w1. split; [exact Hrun |]. split; [exact Hnew | exact Hhandle].
Defined.

Lemma handle_storage_scope_witness :
  exists c w1,
    createContext 41 (VRef 10) (VRef 11) booted_with_storage = (Normal (VRef c), w1)
    /\ currentContext 41 booted_with_storage = (Normal VUndefined, booted_with_storage)
    /\ currentContext 41 (before_pipeline c 11 res0_record (with_store 46 (VRef c) w1))
       = (Normal (VRef c), before_pipeline c 11 res0_record (with_store 46 (VRef c) w1)).
Proof.
  destruct (handle_storage_scope host env 41 10 11 43 44 45 46 None storage_app_props
              req1_record res0_record VUndefined (pipeline_over 42) booted_with_storage
              ltac:(vm_compute; reflexivity) ltac:(vm_compute; reflexivity)
              ltac:(vm_compute; reflexivity) ltac:(vm_compute; reflexivity)
              ltac:(vm_compute; reflexivity) ltac:(vm_compute; reflexivity)
              ltac:(vm_compute; reflexivity) ltac:(vm_compute; reflexivity))
    as (c & w1 & Hrun & _ & Hcurrent & _).
  exists c, w1. split; [exact Hrun |].
  split; [vm_compute; reflexivity | exact Hcurrent].
Defined.

Lemma asyncCtxStorage_scope_witness :
  asyncCtxStorage 41 (VStr "ctx") (ret Fulfilled) booted_with_storage
  = (Normal Fulfilled,
     with_store 46 VUndefined (with_store 46 (VStr "ctx") booted_with_storage))
  /\ currentContext 41 (with_store 46 (VStr "ctx") booted_with_storage)
     = (Normal (VStr "ctx"), with_store 46 (VStr "ctx") booted_with_storage)
  /\ exists l w',
       asyncCtxStorage app (VStr "ctx") (ret Fulfilled) booted
       = (Normal (Rejected (VRef l)), w')
       /\ log w' = log booted.
Proof.
  destruct (asyncCtxStorage_scope 41 (VStr "ctx") (ret Fulfilled) booted_with_storage)
    as (_ & Hscope & _).
  destruct (Hscope None storage_app_props 46%positive VUndefined
              ltac:(vm_compute; reflexivity) ltac:(vm_compute; reflexivity)
              ltac:(vm_compute; reflexivity))
    as (Hcurrent & Hrun).
  destruct (asyncCtxStorage_scope app (VStr "ctx") (ret Fulfilled) booted)
    as (_ & _ & Hmissing).
  split; [exact (Hrun (Normal Fulfilled) _ eq_refl) |].
  split; [exact Hcurrent |].
  destruct (Hmissing ltac:(vm_compute; reflexivity))
    as (l & w' & Hrejected & _ & _ & _ & _ & Hlog).
  exists l, w'. split; [exact Hrejected | exact Hlog].
Defined.

Lemma use_all_in_order_witness :
  use_all app [VFun (FnUser 1); VFun (FnUser 2)] booted
  = (Normal tt,
     with_heap (<[16%positive := CArray [VFun (FnUser 1); VFun (FnUser 2)]]> (heap booted))
       booted)
  /\ exists l w',
       use_all app [VFun (FnUser 1); VNum 0; VFun (FnUser 2)] booted = (Throw (VRef l), w')
       /\ heap w' !! 16%positive = Some (CArray [VFun (FnUser 1)]).
Proof.
  destruct (use_all_in_order app 16 None app_props [VFun (FnUser 1); VFun (FnUser 2)]
              ltac:(vm_compute; reflexivity) [] booted
              ltac:(vm_compute; reflexivity) ltac:(vm_compute; reflexivity))
    as (Hall & _).
  destruct (use_all_in_order app 16 None app_props
              [VFun (FnUser 1); VNum 0; VFun (FnUser 2)]
              ltac:(vm_compute; reflexivity) [] booted
              ltac:(vm_compute; reflexivity) ltac:(vm_compute; reflexivity))
    as (_ & Hbad).
  split; [exact (Hall eq_refl) |].
  exact (Hbad [VFun (FnUser 1)] (VNum 0) [VFun (FnUser 2)] eq_refl eq_refl eq_refl).
Defined.

Lemma applications_isolated_witness :
  exists arr1 arr2 c1 c2,
    arr1 <> arr2 /\ c1 <> c2
    /\ cell_get (heap booted_twice) 14 "middleware" = VRef arr1
    /\ cell_get (heap booted_twice) 20 "middleware" = VRef arr2
    /\ cell_get (heap booted_twice) 14 "context" = VRef c1
    /\ cell_get (heap booted_twice) 20 "context" = VRef c2.
Proof.
  destruct (applications_isolated env VUndefined VUndefined world booted booted_twice
              1 2 3 14 20 eq_refl eq_refl eq_refl
              ltac:(vm_compute; reflexivity) ltac:(vm_compute; reflexivity))
    as (arr1 & arr2 & c1 & c2 & _ & Harr & Hc & Hm1 & Hm2 & Hc1 & Hc2 & _).
  exists arr1, arr2, c1, c2. tauto.
Defined.

Lemma currentContext_of_new_application_witness :
  currentContext 41 booted_with_storage = (Normal VUndefined, booted_with_storage)
  /\ currentContext app booted = (Normal VUndefined, booted).
Proof.
  split.
  - exact (currentContext_of_new_application env (VRef 40) with_storage_options
             booted_with_storage 1 2 3 41 eq_refl eq_refl eq_refl
             ltac:(vm_compute; reflexivity)).
  - exact (currentContext_of_new_application env VUndefined world booted 1 2 3 app
             eq_refl eq_refl eq_refl ltac:(vm_compute; reflexivity)).
Defined.

Lemma toJSON_of_new_application_witness :
  exists j w2 props,
    toJSON 41 (snd (new_Application env (VRef 40) with_options)) = (Normal (VRef j), w2)
    /\ heap w2 !! j = Some (CObj None props)
    /\ dom props = {["subdomainOffset"; "proxy"; "env"]}.
Proof.
  destruct (toJSON_of_new_application env (VRef 40) with_options
              (snd (new_Application env (VRef 40) with_options)) 1 2 3 41
              eq_refl eq_refl eq_refl ltac:(vm_compute; reflexivity))
    as (j & w2 & props & Hrun & Hj & Hdom & _).
  exists j, w2, props. tauto.
Defined.

Lemma createContext_allocates_four_witness :
  exists c request response state w1,
    createContext app (VRef 10) (VRef 11) booted = (Normal (VRef c), w1)
    /\ NoDup [c; request; response; state]
    /\ heap w1 !! app = heap booted !! app
    /\ heap w1 !! 11%positive = Some (CRes res0_record)
    /\ log w1 = [].
Proof.
  destruct (createContext_allocates_four app 10 17 18 19 None app_props
              req1_record (VRef 11) booted
              ltac:(vm_compute; reflexivity) ltac:(vm_compute; reflexivity)
              ltac:(vm_compute; reflexivity) ltac:(vm_compute; reflexivity)
              ltac:(vm_compute; reflexivity))
    as (c & request & response & state & w1 & Hrun & Hnodup & Hnew & Hold & _ & Hlog).
  exists c, request, response, state, w1.
  split; [exact Hrun |]. split; [exact Hnodup |].
  assert (Hkept : forall l x, heap booted !! l = Some x -> heap w1 !! l = heap booted !! l).
  { intros l x Hl. apply Hold. intros Hin. apply Hnew in Hin as [Hnone _]. congruence. }
  split; [apply (Hkept app (CObj None app_props)); vm_compute; reflexivity |].
  split.
  { transitivity (heap booted !! 11%positive);
      [apply (Hkept 11%positive (CRes res0_record)) |]; vm_compute; reflexivity. }
  exact Hlog.
Defined.

Lemma createContext_without_request_witness :
  exists l w',
    createContext app VUndefined (VRef 11) booted = (Throw (VRef l), w')
    /\ heap w' !! l
       = Some (CError (type_error "Cannot read properties of undefined")).
Proof.
  destruct (createContext_without_request app 17 18 19 None app_props VUndefined (VRef 11)
              booted
              ltac:(vm_compute; reflexivity) ltac:(vm_compute; reflexivity)
              ltac:(vm_compute; reflexivity) ltac:(vm_compute; reflexivity) eq_refl)
    as (l & w' & Hrun & _ & Herr & _).
  exists l, w'. split; [exact Hrun | exact Herr].
Defined.

Lemma context_delegation_witness :
  exists c w1,
    createContext app (VRef 10) (VRef 11) booted = (Normal (VRef c), w1)
    /\ cell_get (heap w1) c "method" = VStr "GET"
    /\ exists w2,
         set (VRef 17) "db" (VStr "pool") w1 = (Normal tt, w2)
         /\ cell_get (heap w2) c "db" = VStr "pool".
Proof.
  destruct (context_delegation app 10 17 18 19 None (Some 1%positive) app_props ∅
              req1_record (VRef 11) booted
              ltac:(vm_compute; reflexivity) ltac:(vm_compute; reflexivity)
              ltac:(vm_compute; reflexivity) ltac:(vm_compute; reflexivity)
              ltac:(vm_compute; reflexivity) ltac:(vm_compute; reflexivity))
    as (c & w1 & Hrun & _ & Hlive & Hmodule & _).
  exists c, w1. split; [exact Hrun |].
  split.
  - apply (Hmodule "method" (VStr "GET") 1%positive None
             (<["writable" := VBool true]>
              (<["status" := VNum 404]>
              (<["message" := VStr "Not Found"]>
              (<["method" := VStr "GET"]>
              (<["onerror" := VFun (FnUser 8)]> ∅))))));
      [apply (bool_decide_unpack _); vm_compute; exact I | reflexivity
      | vm_compute; reflexivity | reflexivity | vm_compute; reflexivity].
  - apply Hlive. apply (bool_decide_unpack _). vm_compute. exact I.
Defined.

Lemma indent_lines_witness :
  indent ("Error: boom" +:+ String LF "    at app.js:1:1")
  = "  Error: boom" +:+ String LF "      at app.js:1:1".
Proof. exact (indent_lines "Error: boom" ["    at app.js:1:1"] eq_refl eq_refl). Defined.
